(** * The IPVS statistics plugin (src/ipvs.c)

    A shallow embedding of the plugin's C code and the properties of its
    poll cycle.  The kernel, the allocator, the clock and the dispatch
    interface of the daemon are the environment: the kernel's answers are
    given by an oracle that sees the calls made so far, the dispatched value
    lists and the logged errors are collected in the state.  A function of
    the plugin is a computation that returns, terminates the process
    ([exit (3)]) or runs into undefined behaviour (a NULL dereference, a
    read past the end of a table). *)

From Stdlib Require Import ZArith List String Ascii Bool Lia.
From Stdlib Require Import DecimalString DecimalN.
Import ListNotations.

Local Open Scope string_scope.
Local Open Scope Z_scope.

(** ** Byte order, decimal output and the C library's formatting *)

Inductive byte_order : Type := LittleEndian | BigEndian.

(** [ntohs]: a 16-bit value from network (big endian) to host byte order. *)
Definition bswap16 (x : Z) : Z :=
  Z.lor (Z.shiftl (Z.land x 255) 8) (Z.land (Z.shiftr x 8) 255).

Definition ntohs (o : byte_order) (x : Z) : Z :=
  match o with
  | BigEndian => Z.land x 65535
  | LittleEndian => bswap16 x
  end.

Definition htons (o : byte_order) (x : Z) : Z := ntohs o x.

(** The [i]-th byte, in memory order, of a 32-bit value held by the host. *)
Definition octet (o : byte_order) (x : Z) (i : Z) : Z :=
  match o with
  | LittleEndian => Z.land (Z.shiftr x (8 * i)) 255
  | BigEndian => Z.land (Z.shiftr x (8 * (3 - i))) 255
  end.

(** The 32-bit value whose bytes in memory are [a], [b], [c], [d]: what
    [inet_addr] returns for the text [a.b.c.d]. *)
Definition in_addr_of (o : byte_order) (a b c d : Z) : Z :=
  match o with
  | LittleEndian => a + 256 * (b + 256 * (c + 256 * d))
  | BigEndian => d + 256 * (c + 256 * (b + 256 * a))
  end.

(** The conversion [%u] of printf. *)
Definition utoa (n : Z) : string :=
  NilEmpty.string_of_uint (N.to_uint (Z.to_N n)).

(** [inet_ntoa]: the four bytes of the address, in memory order, in decimal
    and separated by dots. *)
Definition inet_ntoa (o : byte_order) (s_addr : Z) : string :=
  utoa (octet o s_addr 0) ++ "." ++ utoa (octet o s_addr 1) ++ "." ++
  utoa (octet o s_addr 2) ++ "." ++ utoa (octet o s_addr 3).

(** A character buffer: a local array is not initialised before it is
    written. *)
Inductive cbuf : Type :=
| Uninit
| Cstr (s : string).

(** [snprintf (buf, size, ...)] where the conversions produce [text]: at most
    [size - 1] characters and the terminator are stored, nothing when [size]
    is 0; the result is the length of the whole text. *)
Definition snprintf (buf : cbuf) (size : Z) (text : string) : cbuf * Z :=
  (if 0 <? size then Cstr (substring 0 (Z.to_nat (size - 1)) text) else buf,
   Z.of_nat (String.length text)).

(** ** The kernel's structures (ip_vs.h), with the fields the plugin uses *)

Record ip_vs_stats_user : Type := {
  conns : Z;
  inpkts : Z;
  outpkts : Z;
  inbytes : Z;
  outbytes : Z
}.

Record ip_vs_dest_entry : Type := {
  de_addr : Z;
  de_port : Z;
  de_stats : ip_vs_stats_user
}.

Record ip_vs_service_entry : Type := {
  se_protocol : Z;
  se_addr : Z;
  se_port : Z;
  se_fwmark : Z;
  se_num_dests : Z;
  se_stats : ip_vs_stats_user
}.

Record ip_vs_getinfo : Type := {
  gi_version : Z;
  gi_size : Z;
  gi_num_services : Z
}.

Record ip_vs_get_services : Type := {
  gs_num_services : Z;
  gs_entrytable : list ip_vs_service_entry
}.

Record ip_vs_get_dests : Type := {
  gd_protocol : Z;
  gd_addr : Z;
  gd_port : Z;
  gd_fwmark : Z;
  gd_num_dests : Z;
  gd_entrytable : list ip_vs_dest_entry
}.

(** The protocol numbers of netinet/in.h and the error numbers of errno.h
    on Linux. *)
Definition IPPROTO_TCP : Z := 6.
Definition IPPROTO_UDP : Z := 17.

Definition EPERM : Z := 1.
Definition ESRCH : Z := 3.
Definition ENOMEM : Z := 12.
Definition EINVAL : Z := 22.
Definition ENOPROTOOPT : Z := 92.

(** ** The daemon's value list (plugin.h) *)

(** The fields of [value_list_t] that the plugin assigns; the character
    arrays are taken as strings. *)

Record value_list_t : Type := {
  vl_values : list Z;
  vl_time : Z;
  vl_interval : Z;
  vl_host : string;
  vl_plugin : string;
  vl_plugin_instance : string;
  vl_type_instance : string
}.

(** A call of [plugin_dispatch_values (type, &vl)]. *)
Definition sample : Type := (string * value_list_t)%type.

(** ** The environment *)

(** The calls the plugin makes to the system. *)
Inductive syscall : Type :=
| SysSocket
| SysClose (fd : Z)
| SysMalloc (len : Z)
| SysTime
| SysGetInfo (fd len : Z)
| SysGetServices (fd num_services len : Z)
| SysGetDests (fd : Z) (request : ip_vs_get_dests) (len : Z).

(** The value of [ipvs_func]. *)
Inductive func_ptr : Type :=
| FuncNull
| FuncGetServices
| FuncGetDests.

Definition func_ptr_eqb (f g : func_ptr) : bool :=
  match f, g with
  | FuncNull, FuncNull => true
  | FuncGetServices, FuncGetServices => true
  | FuncGetDests, FuncGetDests => true
  | _, _ => false
  end.

(** What the plugin's code takes from outside this file: the byte order of
    the host, the constants and globals of the daemon, the sizes of the
    kernel's structures, and the answers of the system.  An answer is a
    function of the calls made before it, so the kernel's tables may change
    from one call to the next.  A [getsockopt] answers with [inl errno] or
    with [inr] of the content of the caller's buffer after the call.
    [dead_errbuf] is what a caller of [ipvs_strerror] reads at the address
    of [errbuf], the local array of [ipvs_strerror] in which [sstrerror]
    wrote its text, once [ipvs_strerror] has returned: the program does not
    determine it. *)
Record environment : Type := {
  host_order : byte_order;
  DATA_MAX_NAME_LEN : Z;
  hostname_g : string;
  interval_g : Z;
  sizeof_getinfo : Z;
  sizeof_get_services : Z;
  sizeof_service_entry : Z;
  sizeof_get_dests : Z;
  sizeof_dest_entry : Z;
  sstrerror : Z -> string;
  dead_errbuf : list syscall -> string -> string;
  sys_socket : list syscall -> Z * Z;
  sys_malloc : list syscall -> Z -> bool;
  sys_time : list syscall -> Z;
  sys_get_info : list syscall -> Z -> Z -> Z + ip_vs_getinfo;
  sys_get_services : list syscall -> Z -> Z -> Z -> Z + ip_vs_get_services;
  sys_get_dests :
    list syscall -> Z -> ip_vs_get_dests -> Z -> Z + ip_vs_get_dests
}.

(** ** The state of the process *)

Record state : Type := {
  sockfd : Z;
  ipvs_func : func_ptr;
  ipvs_info : ip_vs_getinfo;
  dispatched : list sample;
  errlog : list string;
  history : list syscall
}.

Definition initial_state : state :=
  {| sockfd := -1;
     ipvs_func := FuncNull;
     ipvs_info := {| gi_version := 0; gi_size := 0; gi_num_services := 0 |};
     dispatched := [];
     errlog := [];
     history := [] |}.

Definition set_sockfd (fd : Z) (st : state) : state :=
  {| sockfd := fd; ipvs_func := ipvs_func st; ipvs_info := ipvs_info st;
     dispatched := dispatched st; errlog := errlog st;
     history := history st |}.

Definition set_ipvs_func (f : func_ptr) (st : state) : state :=
  {| sockfd := sockfd st; ipvs_func := f; ipvs_info := ipvs_info st;
     dispatched := dispatched st; errlog := errlog st;
     history := history st |}.

Definition set_ipvs_info (i : ip_vs_getinfo) (st : state) : state :=
  {| sockfd := sockfd st; ipvs_func := ipvs_func st; ipvs_info := i;
     dispatched := dispatched st; errlog := errlog st;
     history := history st |}.

Definition add_dispatched (s : sample) (st : state) : state :=
  {| sockfd := sockfd st; ipvs_func := ipvs_func st; ipvs_info := ipvs_info st;
     dispatched := (dispatched st ++ [s])%list; errlog := errlog st;
     history := history st |}.

Definition add_errlog (msg : string) (st : state) : state :=
  {| sockfd := sockfd st; ipvs_func := ipvs_func st; ipvs_info := ipvs_info st;
     dispatched := dispatched st; errlog := (errlog st ++ [msg])%list;
     history := history st |}.

Definition add_history (c : syscall) (st : state) : state :=
  {| sockfd := sockfd st; ipvs_func := ipvs_func st; ipvs_info := ipvs_info st;
     dispatched := dispatched st; errlog := errlog st;
     history := (history st ++ [c])%list |}.

(** ** Computations *)

Inductive outcome (A : Type) : Type :=
| Returned (a : A)
| Exited (status : Z)
| Fault.

Arguments Returned {A} a.
Arguments Exited {A} status.
Arguments Fault {A}.

Definition M (A : Type) : Type := state -> outcome A * state.

Definition ret {A : Type} (a : A) : M A := fun st => (Returned a, st).

Definition bind {A B : Type} (m : M A) (f : A -> M B) : M B :=
  fun st =>
    match m st with
    | (Returned a, st') => f a st'
    | (Exited c, st') => (Exited c, st')
    | (Fault, st') => (Fault, st')
    end.

Definition exit {A : Type} (status : Z) : M A := fun st => (Exited status, st).

Definition fault {A : Type} : M A := fun st => (Fault, st).

Definition get : M state := fun st => (Returned st, st).

Definition modify (f : state -> state) : M unit :=
  fun st => (Returned tt, f st).

Declare Scope ipvs_scope.
Delimit Scope ipvs_scope with ipvs.

Notation "x <- m ;; k" := (bind m (fun x => k))
  (at level 61, m at next level, right associativity) : ipvs_scope.
Notation "m ;; k" := (bind m (fun _ => k))
  (at level 61, right associativity) : ipvs_scope.

Local Open Scope ipvs_scope.

(** [log_err (...)] is [ERROR ("ipvs: " ...)]. *)
Definition log_err (msg : string) : M unit :=
  modify (add_errlog ("ipvs: " ++ msg)).

Definition plugin_dispatch_values (type : string) (vl : value_list_t)
  : M unit :=
  modify (add_dispatched (type, vl)).

(** A call to the system: the answer is computed from the calls made so far
    and the call is recorded. *)
Definition call {A : Type} (c : syscall) (answer : list syscall -> A) : M A :=
  fun st => (Returned (answer (history st)), add_history c st).

(** Reading the string a [char *] points to. *)
Definition read_cstr (p : option cbuf) : M string :=
  match p with
  | Some (Cstr s) => ret s
  | Some Uninit => fault
  | None => fault
  end.

(** [for (i = 0; i < count; ++i) body (&table[i])], started at [i]. *)
Fixpoint for_each_entry {A : Type} (table : list A) (i : nat) (count : nat)
  (body : A -> M unit) : M unit :=
  match count with
  | O => ret tt
  | S count' =>
      match nth_error table i with
      | None => fault
      | Some a => body a ;; for_each_entry table (S i) count' body
      end
  end.

(** [socklen_t] is an unsigned 32-bit integer. *)
Definition socklen (n : Z) : Z := n mod 2 ^ 32.

(** ** The plugin *)

(** The table of [ipvs_strerror]: function, error number, message.  A NULL
    function matches every caller. *)
Definition strerror_table : list (func_ptr * Z * string) :=
  [ (FuncNull, EPERM, "Permission denied (you must be root)");
    (FuncNull, EINVAL, "Module is wrong version");
    (FuncNull, ENOPROTOOPT, "Protocol not available");
    (FuncNull, ENOMEM, "Memory allocation problem");
    (FuncGetServices, ESRCH, "No such service");
    (FuncGetDests, ESRCH, "No such service") ].

(** The pointer [ipvs_strerror] returns: to a message of its table, a
    string literal, or to [errbuf], its own local array, in which
    [sstrerror] wrote [written].  The array is gone when [ipvs_strerror]
    has returned. *)
Inductive strerror_result : Type :=
| TableMessage (message : string)
| DeadErrbuf (written : string).

(** The text produced by the format ["%s_%s%u"] of [get_pi]. *)
Definition pi_text (o : byte_order) (se : ip_vs_service_entry) : string :=
  inet_ntoa o (se_addr se) ++ "_" ++
  (if se_protocol se =? IPPROTO_TCP then "TCP" else "UDP") ++
  utoa (ntohs o (se_port se)).

(** The text produced by the format ["%s_%u"] of [get_ti]. *)
Definition ti_text (o : byte_order) (de : ip_vs_dest_entry) : string :=
  inet_ntoa o (de_addr de) ++ "_" ++ utoa (ntohs o (de_port de)).

Section Plugin.

Variable E : environment.

Definition ipvs_strerror (err : Z) : M strerror_result :=
  st <- get ;;
  match
    find (fun row : func_ptr * Z * string =>
            let '(func, e, _) := row in
            (func_ptr_eqb func FuncNull || func_ptr_eqb func (ipvs_func st))
            && (e =? err))
         strerror_table
  with
  | Some (_, _, message) => ret (TableMessage message)
  | None => ret (DeadErrbuf (sstrerror E err))
  end.

(** Reading the message through the pointer [ipvs_strerror] returned. *)
Definition read_message (msg : strerror_result) : M string :=
  match msg with
  | TableMessage message => ret message
  | DeadErrbuf written =>
      fun st => (Returned (dead_errbuf E (history st) written), st)
  end.

(** [log_err (format "%s", msg)]: the message is read when the line is
    formatted. *)
Definition log_err_s (format : string) (msg : strerror_result) : M unit :=
  text <- read_message msg ;;
  log_err (format ++ text).

Definition services_len (num_services : Z) : Z :=
  socklen (sizeof_get_services E + sizeof_service_entry E * num_services).

Definition dests_len (num_dests : Z) : Z :=
  socklen (sizeof_get_dests E + sizeof_dest_entry E * num_dests).

Definition ipvs_get_services : M (option ip_vs_get_services) :=
  st <- get ;;
  let num_services := gi_num_services (ipvs_info st) in
  let len := services_len num_services in
  allocated <- call (SysMalloc len) (fun h => sys_malloc E h len) ;;
  if negb allocated then
    log_err "ipvs_get_services: Out of memory." ;; exit 3
  else
    modify (set_ipvs_func FuncGetServices) ;;
    r <- call (SysGetServices (sockfd st) num_services len)
              (fun h => sys_get_services E h (sockfd st) num_services len) ;;
    match r with
    | inl errno =>
        msg <- ipvs_strerror errno ;;
        log_err_s "ipvs_get_services: getsockopt failed: " msg ;;
        ret None
    | inr services => ret (Some services)
    end.

Definition ipvs_get_dests (se : ip_vs_service_entry)
  : M (option ip_vs_get_dests) :=
  let len := dests_len (se_num_dests se) in
  allocated <- call (SysMalloc len) (fun h => sys_malloc E h len) ;;
  if negb allocated then
    log_err "ipvs_get_dests: Out of memory." ;; exit 3
  else
    modify (set_ipvs_func FuncGetDests) ;;
    let request :=
      {| gd_protocol := se_protocol se; gd_addr := se_addr se;
         gd_port := se_port se; gd_fwmark := se_fwmark se;
         gd_num_dests := se_num_dests se; gd_entrytable := [] |} in
    st <- get ;;
    r <- call (SysGetDests (sockfd st) request len)
              (fun h => sys_get_dests E h (sockfd st) request len) ;;
    match r with
    | inl errno =>
        msg <- ipvs_strerror errno ;;
        log_err_s "ipvs_get_dests: getsockopt() failed: " msg ;;
        ret None
    | inr dests => ret (Some dests)
    end.

Definition cipvs_init : M Z :=
  let len := sizeof_getinfo E in
  r <- call SysSocket (sys_socket E) ;;
  let '(fd, errno) := r in
  modify (set_sockfd fd) ;;
  if fd =? -1 then
    msg <- ipvs_strerror errno ;;
    log_err_s "cipvs_init: socket() failed: " msg ;;
    ret (-1)
  else
    r <- call (SysGetInfo fd len) (fun h => sys_get_info E h fd len) ;;
    match r with
    | inl errno =>
        msg <- ipvs_strerror errno ;;
        log_err_s "cipvs_init: getsockopt() failed: " msg ;;
        ret (-1)
    | inr info => modify (set_ipvs_info info) ;; ret 0
    end.

(** The plugin instance.  The result is the return value and the buffer
    [pi] points to after the call. *)
Definition get_pi (se : option ip_vs_service_entry) (pi : option cbuf)
  (size : Z) : M (Z * option cbuf) :=
  match se, pi with
  | Some se, Some buf =>
      let '(buf', len) := snprintf buf size (pi_text (host_order E) se) in
      if (len <? 0) || (size <=? len) then
        s <- read_cstr (Some buf') ;;
        log_err ("plugin instance truncated: " ++ s) ;;
        ret (-1, Some buf')
      else ret (0, Some buf')
  | _, _ => ret (0, pi)
  end.

(** The type instance. *)
Definition get_ti (de : option ip_vs_dest_entry) (ti : option cbuf)
  (size : Z) : M (Z * option cbuf) :=
  match de, ti with
  | Some de, Some buf =>
      let '(buf', len) := snprintf buf size (ti_text (host_order E) de) in
      if (len <? 0) || (size <=? len) then
        s <- read_cstr (Some buf') ;;
        log_err ("type instance truncated: " ++ s) ;;
        ret (-1, Some buf')
      else ret (0, Some buf')
  | _, _ => ret (0, ti)
  end.

(** [(NULL != ti) ? ti : "total"] *)
Definition type_instance_of (ti : option cbuf) : M string :=
  match ti with
  | None => ret "total"
  | Some _ => read_cstr ti
  end.

Definition cipvs_submit_connections (pi ti : option cbuf) (value : Z)
  : M unit :=
  now <- call SysTime (sys_time E) ;;
  plugin_instance <- read_cstr pi ;;
  type_instance <- type_instance_of ti ;;
  plugin_dispatch_values "connections"
    {| vl_values := [value];
       vl_time := now;
       vl_interval := interval_g E;
       vl_host := hostname_g E;
       vl_plugin := "ipvs";
       vl_plugin_instance := plugin_instance;
       vl_type_instance := type_instance |}.

Definition cipvs_submit_if (pi : option cbuf) (t : string) (ti : option cbuf)
  (rx tx : Z) : M unit :=
  now <- call SysTime (sys_time E) ;;
  plugin_instance <- read_cstr pi ;;
  type_instance <- type_instance_of ti ;;
  plugin_dispatch_values t
    {| vl_values := [rx; tx];
       vl_time := now;
       vl_interval := interval_g E;
       vl_host := hostname_g E;
       vl_plugin := "ipvs";
       vl_plugin_instance := plugin_instance;
       vl_type_instance := type_instance |}.

Definition cipvs_submit_dest (pi : option cbuf) (de : ip_vs_dest_entry)
  : M unit :=
  let stats := de_stats de in
  r <- get_ti (Some de) (Some Uninit) (DATA_MAX_NAME_LEN E) ;;
  let '(rc, ti) := r in
  if negb (rc =? 0) then ret tt
  else
    cipvs_submit_connections pi ti (conns stats) ;;
    cipvs_submit_if pi "if_packets" ti (inpkts stats) (outpkts stats) ;;
    cipvs_submit_if pi "if_octets" ti (inbytes stats) (outbytes stats).

(** [dests->num_dests] and [dests->entrytable] are read without a test of
    [dests]: with [dests] NULL that is a NULL dereference. *)
Definition cipvs_submit_service (se : ip_vs_service_entry) : M unit :=
  let stats := se_stats se in
  dests <- ipvs_get_dests se ;;
  r <- get_pi (Some se) (Some Uninit) (DATA_MAX_NAME_LEN E) ;;
  let '(rc, pi) := r in
  if negb (rc =? 0) then ret tt
  else
    cipvs_submit_connections pi None (conns stats) ;;
    cipvs_submit_if pi "if_packets" None (inpkts stats) (outpkts stats) ;;
    cipvs_submit_if pi "if_octets" None (inbytes stats) (outbytes stats) ;;
    match dests with
    | None => fault
    | Some d =>
        for_each_entry (gd_entrytable d) 0 (Z.to_nat (gd_num_dests d))
          (cipvs_submit_dest pi)
    end.

Definition cipvs_read : M Z :=
  services <- ipvs_get_services ;;
  match services with
  | None => ret (-1)
  | Some s =>
      for_each_entry (gs_entrytable s) 0 (Z.to_nat (gs_num_services s))
        cipvs_submit_service ;;
      ret 0
  end.

Definition cipvs_shutdown : M Z :=
  st <- get ;;
  call (SysClose (sockfd st)) (fun _ => tt) ;;
  ret 0.

(** The daemon calls the read callback once per interval, whatever the
    callback returned before. *)
Fixpoint read_cycles (n : nat) : M unit :=
  match n with
  | O => ret tt
  | S n' => cipvs_read ;; read_cycles n'
  end.

End Plugin.

(** ** A kernel with a fixed table, for the examples *)

(** The row of the table a destination request names. *)
Definition same_service (request : ip_vs_get_dests)
  (row : ip_vs_service_entry * (Z + list ip_vs_dest_entry)) : bool :=
  (se_protocol (fst row) =? gd_protocol request)
  && (se_addr (fst row) =? gd_addr request)
  && (se_port (fst row) =? gd_port request)
  && (se_fwmark (fst row) =? gd_fwmark request).

(** A host with byte order [o] and identifier capacity [capacity], on a
    kernel whose table never changes: each row is a service with either the
    error number of its destination fetch or its destinations.  The sizes
    are those of the structures on a 64-bit Linux host, every allocation
    succeeds, the clock shows 1000 and the dead [errbuf] reads as the
    empty text. *)
Definition fixed_kernel (o : byte_order) (capacity : Z)
  (table : list (ip_vs_service_entry * (Z + list ip_vs_dest_entry)))
  : environment :=
  {| host_order := o;
     DATA_MAX_NAME_LEN := capacity;
     hostname_g := "lb1";
     interval_g := 10;
     sizeof_getinfo := 12;
     sizeof_get_services := 8;
     sizeof_service_entry := 104;
     sizeof_get_dests := 24;
     sizeof_dest_entry := 96;
     sstrerror := fun _ => "Unknown error";
     dead_errbuf := fun _ _ => "";
     sys_socket := fun _ => (3, 0);
     sys_malloc := fun _ _ => true;
     sys_time := fun _ => 1000;
     sys_get_info := fun _ _ _ =>
       inr {| gi_version := 65537; gi_size := 4096;
              gi_num_services := Z.of_nat (List.length table) |};
     sys_get_services := fun _ _ num_services _ =>
       inr {| gs_num_services := num_services;
              gs_entrytable :=
                firstn (Z.to_nat num_services) (map fst table) |};
     sys_get_dests := fun _ _ request _ =>
       match find (same_service request) table with
       | None => inl ESRCH
       | Some (_, inl errno) => inl errno
       | Some (_, inr dests) =>
           inr {| gd_protocol := gd_protocol request;
                  gd_addr := gd_addr request;
                  gd_port := gd_port request;
                  gd_fwmark := gd_fwmark request;
                  gd_num_dests := gd_num_dests request;
                  gd_entrytable :=
                    firstn (Z.to_nat (gd_num_dests request)) dests |}
       end |}.

(** The same host when the allocator answers with [malloc]. *)
Definition with_malloc (malloc : list syscall -> Z -> bool) (E : environment)
  : environment :=
  {| host_order := host_order E;
     DATA_MAX_NAME_LEN := DATA_MAX_NAME_LEN E;
     hostname_g := hostname_g E;
     interval_g := interval_g E;
     sizeof_getinfo := sizeof_getinfo E;
     sizeof_get_services := sizeof_get_services E;
     sizeof_service_entry := sizeof_service_entry E;
     sizeof_get_dests := sizeof_get_dests E;
     sizeof_dest_entry := sizeof_dest_entry E;
     sstrerror := sstrerror E;
     dead_errbuf := dead_errbuf E;
     sys_socket := sys_socket E;
     sys_malloc := malloc;
     sys_time := sys_time E;
     sys_get_info := sys_get_info E;
     sys_get_services := sys_get_services E;
     sys_get_dests := sys_get_dests E |}.

(** The same host when the service table fetch answers with [fetch]. *)
Definition with_get_services
  (fetch : list syscall -> Z -> Z -> Z -> Z + ip_vs_get_services)
  (E : environment) : environment :=
  {| host_order := host_order E;
     DATA_MAX_NAME_LEN := DATA_MAX_NAME_LEN E;
     hostname_g := hostname_g E;
     interval_g := interval_g E;
     sizeof_getinfo := sizeof_getinfo E;
     sizeof_get_services := sizeof_get_services E;
     sizeof_service_entry := sizeof_service_entry E;
     sizeof_get_dests := sizeof_get_dests E;
     sizeof_dest_entry := sizeof_dest_entry E;
     sstrerror := sstrerror E;
     dead_errbuf := dead_errbuf E;
     sys_socket := sys_socket E;
     sys_malloc := sys_malloc E;
     sys_time := sys_time E;
     sys_get_info := sys_get_info E;
     sys_get_services := fetch;
     sys_get_dests := sys_get_dests E |}.

Definition stats_5_10_20_100_200 : ip_vs_stats_user :=
  {| conns := 5; inpkts := 10; outpkts := 20; inbytes := 100;
     outbytes := 200 |}.

(** The service TCP 10.0.0.1:80. *)
Definition service_10_0_0_1 (o : byte_order) : ip_vs_service_entry :=
  {| se_protocol := IPPROTO_TCP;
     se_addr := in_addr_of o 10 0 0 1;
     se_port := htons o 80;
     se_fwmark := 0;
     se_num_dests := 1;
     se_stats := stats_5_10_20_100_200 |}.

(** The destination 10.0.0.2:8080. *)
Definition dest_10_0_0_2 (o : byte_order) : ip_vs_dest_entry :=
  {| de_addr := in_addr_of o 10 0 0 2;
     de_port := htons o 8080;
     de_stats := stats_5_10_20_100_200 |}.

(** The service UDP 192.168.100.200:5353, without destinations. *)
Definition service_192_168_100_200 (o : byte_order) : ip_vs_service_entry :=
  {| se_protocol := IPPROTO_UDP;
     se_addr := in_addr_of o 192 168 100 200;
     se_port := htons o 5353;
     se_fwmark := 0;
     se_num_dests := 0;
     se_stats := stats_5_10_20_100_200 |}.

(** The state after a successful [cipvs_init], and the outcome and the
    state after one poll cycle that follows it. *)
Definition after_init (E : environment) : state :=
  snd (cipvs_init E initial_state).

Definition first_cycle (E : environment) : outcome Z * state :=
  cipvs_read E (after_init E).

(** ** Properties of runs *)

(** Every run of [m] takes a state to a state that [R] relates to it,
    however the run ends. *)
Definition steps (R : state -> state -> Prop) {A : Type} (m : M A) : Prop :=
  forall st, R st (snd (m st)).

(** The run dispatched the value lists [new], in this order, and nothing
    else. *)
Definition dispatches (new : list sample) (st st' : state) : Prop :=
  dispatched st' = (dispatched st ++ new)%list.

(** The run dispatched only value lists that satisfy [Q]. *)
Definition emits (Q : sample -> Prop) (st st' : state) : Prop :=
  exists new, dispatches new st st' /\ Forall Q new.

(** The run dispatched nothing. *)
Definition quiet (st st' : state) : Prop := dispatched st' = dispatched st.

(** A service table request made for [n] services. *)
Definition sized_for (E : environment) (n : Z) (c : syscall) : Prop :=
  match c with
  | SysGetServices _ num_services len =>
      num_services = n /\ len = services_len E n
  | _ => True
  end.

(** The run left [ipvs_info] as it was and made only service table requests
    for the number of services in it. *)
Definition keeps_info (E : environment) (st st' : state) : Prop :=
  ipvs_info st' = ipvs_info st /\
  exists new,
    history st' = (history st ++ new)%list /\
    Forall (sized_for E (gi_num_services (ipvs_info st))) new.

(** ** Identifiers *)

Definition valid_service (se : ip_vs_service_entry) : Prop :=
  (se_protocol se = IPPROTO_TCP \/ se_protocol se = IPPROTO_UDP) /\
  0 <= se_addr se < 2 ^ 32 /\
  0 <= se_port se < 2 ^ 16.

Definition valid_dest (de : ip_vs_dest_entry) : Prop :=
  0 <= de_addr de < 2 ^ 32 /\ 0 <= de_port de < 2 ^ 16.

Definition service_key (se : ip_vs_service_entry) : Z * Z * Z :=
  (se_protocol se, se_addr se, se_port se).

Definition dest_key (de : ip_vs_dest_entry) : Z * Z :=
  (de_addr de, de_port de).

(** The identifiers in the words of the specification: the address
    [a.b.c.d] in dotted decimal, the protocol name in upper case, the port
    number in decimal. *)
Inductive protocol : Type := TCP | UDP.

Definition protocol_number (p : protocol) : Z :=
  match p with
  | TCP => IPPROTO_TCP
  | UDP => IPPROTO_UDP
  end.

Definition protocol_name (p : protocol) : string :=
  match p with
  | TCP => "TCP"
  | UDP => "UDP"
  end.

Definition dotted_decimal (a b c d : Z) : string :=
  utoa a ++ "." ++ utoa b ++ "." ++ utoa c ++ "." ++ utoa d.

Definition service_id (p : protocol) (a b c d port : Z) : string :=
  dotted_decimal a b c d ++ "_" ++ protocol_name p ++ utoa port.

Definition destination_id (a b c d port : Z) : string :=
  dotted_decimal a b c d ++ "_" ++ utoa port.

Definition is_octet (x : Z) : Prop := 0 <= x < 256.

(** A character of a decimal number. *)
Definition is_digit (c : ascii) : bool :=
  let n := nat_of_ascii c in (48 <=? n)%nat && (n <=? 57)%nat.

Fixpoint all_digits (s : string) : bool :=
  match s with
  | EmptyString => true
  | String c s' => is_digit c && all_digits s'
  end.

(** ** Samples and the entities they belong to *)

(** [s] is a sample of the service [se] itself. *)
Definition service_sample (E : environment) (se : ip_vs_service_entry)
  (s : sample) : Prop :=
  vl_plugin_instance (snd s) = pi_text (host_order E) se /\
  vl_type_instance (snd s) = "total".

(** [s] is a sample of a destination of the table fetched for [se], and its
    plugin instance is the identifier of [se]. *)
Definition dest_sample (E : environment) (se : ip_vs_service_entry)
  (s : sample) : Prop :=
  vl_plugin_instance (snd s) = pi_text (host_order E) se /\
  exists st dests de,
    fst (ipvs_get_dests E se st) = Returned (Some dests) /\
    In de (gd_entrytable dests) /\
    vl_type_instance (snd s) = ti_text (host_order E) de.

(** [s] is a sample of one of the services of [table] or of one of its
    destinations. *)
Definition cycle_sample (E : environment) (table : list ip_vs_service_entry)
  (s : sample) : Prop :=
  exists se, In se table /\ (service_sample E se s \/ dest_sample E se s).

(** The three value lists of one entity, as the submit functions build
    them at the times [t1], [t2], [t3]. *)
Definition entity_samples (E : environment) (pi ti : string)
  (stats : ip_vs_stats_user) (t1 t2 t3 : Z) : list sample :=
  [ ("connections",
     {| vl_values := [conns stats]; vl_time := t1;
        vl_interval := interval_g E; vl_host := hostname_g E;
        vl_plugin := "ipvs"; vl_plugin_instance := pi;
        vl_type_instance := ti |});
    ("if_packets",
     {| vl_values := [inpkts stats; outpkts stats]; vl_time := t2;
        vl_interval := interval_g E; vl_host := hostname_g E;
        vl_plugin := "ipvs"; vl_plugin_instance := pi;
        vl_type_instance := ti |});
    ("if_octets",
     {| vl_values := [inbytes stats; outbytes stats]; vl_time := t3;
        vl_interval := interval_g E; vl_host := hostname_g E;
        vl_plugin := "ipvs"; vl_plugin_instance := pi;
        vl_type_instance := ti |}) ].

(** What a sample tells downstream: type, plugin instance, type instance
    and values. *)
Definition sample_summary (s : sample)
  : string * string * string * list Z :=
  (fst s, vl_plugin_instance (snd s), vl_type_instance (snd s),
   vl_values (snd s)).

(** A kernel with the table of [service_10_0_0_1] and
    [service_192_168_100_200] that refuses the destination fetch of the
    first service with [ESRCH]. *)
Definition stale_service_kernel : environment :=
  fixed_kernel LittleEndian 64
    [ (service_10_0_0_1 LittleEndian, inl ESRCH);
      (service_192_168_100_200 LittleEndian, inr []) ].

(** The destination 192.168.100.201:8080. *)
Definition dest_192_168_100_201 (o : byte_order) : ip_vs_dest_entry :=
  {| de_addr := in_addr_of o 192 168 100 201;
     de_port := htons o 8080;
     de_stats := stats_5_10_20_100_200 |}.

(** A host whose identifiers hold 15 characters, on a kernel with the
    services UDP 192.168.100.200:5353 and TCP 10.0.0.1:80. *)
Definition small_capacity_kernel : environment :=
  fixed_kernel LittleEndian 16
    [ (service_192_168_100_200 LittleEndian, inr []);
      (service_10_0_0_1 LittleEndian, inr [dest_10_0_0_2 LittleEndian]) ].

(** ** The count a service table fetch is sized for *)

(** The reading of the specification: each service table request in
    [rest] is made for the count [latest] that the most recent answer gave,
    the answer of the global info fetch or of an earlier service table
    fetch.  [before] are the calls made before [rest]. *)
Fixpoint sized_by_latest_count (E : environment) (before : list syscall)
  (latest : Z) (rest : list syscall) : bool :=
  match rest with
  | [] => true
  | c :: rest' =>
      match c with
      | SysGetInfo fd len =>
          sized_by_latest_count E (before ++ [c])%list
            match sys_get_info E before fd len with
            | inr info => gi_num_services info
            | inl _ => latest
            end rest'
      | SysGetServices fd num_services len =>
          (num_services =? latest) && (len =? services_len E latest)
          && sized_by_latest_count E (before ++ [c])%list
               match sys_get_services E before fd num_services len with
               | inr services => gs_num_services services
               | inl _ => latest
               end rest'
      | _ => sized_by_latest_count E (before ++ [c])%list latest rest'
      end
  end.

(** A kernel that reports two services to the global info fetch and then
    answers each service table fetch with a table of one service. *)
Definition shrunk_kernel : environment :=
  with_get_services
    (fun _ _ _ _ =>
       inr {| gs_num_services := 1;
              gs_entrytable := [service_192_168_100_200 LittleEndian] |})
    (fixed_kernel LittleEndian 64
       [ (service_192_168_100_200 LittleEndian, inr []);
         (service_10_0_0_1 LittleEndian, inr []) ]).

(** ** Calls, outcomes and groups of samples *)

(** The run made only calls that satisfy [P]. *)
Definition calls (P : syscall -> Prop) (st st' : state) : Prop :=
  exists new, history st' = (history st ++ new)%list /\ Forall P new.

(** A call of a poll cycle on the socket [fd]: no socket is opened or
    closed, the global info is not fetched, and the kernel is asked through
    [fd]. *)
Definition on_socket (fd : Z) (c : syscall) : Prop :=
  match c with
  | SysSocket => False
  | SysClose _ => False
  | SysGetInfo _ _ => False
  | SysGetServices fd' _ _ => fd' = fd
  | SysGetDests fd' _ _ => fd' = fd
  | SysMalloc _ => True
  | SysTime => True
  end.

(** The run left [sockfd] as it was and made only calls on it. *)
Definition keeps_socket (st st' : state) : Prop :=
  sockfd st' = sockfd st /\ calls (on_socket (sockfd st)) st st'.

(** The header [ipvs_get_dests] fills in for the service [se]. *)
Definition dests_request (se : ip_vs_service_entry) : ip_vs_get_dests :=
  {| gd_protocol := se_protocol se; gd_addr := se_addr se;
     gd_port := se_port se; gd_fwmark := se_fwmark se;
     gd_num_dests := se_num_dests se; gd_entrytable := [] |}.

(** A call of the loop over the services of [table]: a destination request
    names a service of the table and is sized by the number of destinations
    that service reports; the service table is not fetched again. *)
Definition requested_for (E : environment)
  (table : list ip_vs_service_entry) (c : syscall) : Prop :=
  match c with
  | SysGetDests _ request len =>
      exists se,
        In se table /\ request = dests_request se /\
        len = dests_len E (se_num_dests se)
  | SysGetServices _ _ _ => False
  | SysGetInfo _ _ => False
  | SysSocket => False
  | SysClose _ => False
  | SysMalloc _ => True
  | SysTime => True
  end.

(** An outcome: a result that satisfies [P], the exit status 3, or, when
    [F] holds, a fault. *)
Definition ends {A : Type} (F : Prop) (P : A -> Prop) (o : outcome A)
  : Prop :=
  match o with
  | Returned a => P a
  | Exited status => status = 3
  | Fault => F
  end.

(** Every run of [m] ends in an outcome that satisfies [P]. *)
Definition ends_in {A : Type} (P : outcome A -> Prop) (m : M A) : Prop :=
  forall st, P (fst (m st)).

(** A table that holds the entries its count announces. *)
Definition services_complete (services : ip_vs_get_services) : Prop :=
  (Z.to_nat (gs_num_services services)
   <= List.length (gs_entrytable services))%nat.

Definition dests_complete (dests : ip_vs_get_dests) : Prop :=
  (Z.to_nat (gd_num_dests dests) <= List.length (gd_entrytable dests))%nat.

(** An error for which the table of [ipvs_strerror] has a message once a
    fetch function has set [ipvs_func]. *)
Definition table_error (errno : Z) : Prop :=
  errno = EPERM \/ errno = EINVAL \/ errno = ENOPROTOOPT \/
  errno = ENOMEM \/ errno = ESRCH.

(** A host whose names have room for the literal total and its
    terminator (the fields of the value list that [strcpy] fills are arrays
    of [DATA_MAX_NAME_LEN] bytes), on a kernel that answers every
    destination request, refuses a service table request only with an
    error of the table of [ipvs_strerror], and whose tables hold the
    entries they announce. *)
Definition well_behaved (E : environment) : Prop :=
  5 < DATA_MAX_NAME_LEN E /\
  (forall h fd num_services len services,
      sys_get_services E h fd num_services len = inr services ->
      services_complete services) /\
  (forall h fd num_services len errno,
      sys_get_services E h fd num_services len = inl errno ->
      table_error errno) /\
  (forall h fd request len,
      exists dests,
        sys_get_dests E h fd request len = inr dests /\
        dests_complete dests).

(** The same host when [stale] is read at the address of the dead
    [errbuf]. *)
Definition with_dead_errbuf (stale : list syscall -> string -> string)
  (E : environment) : environment :=
  {| host_order := host_order E;
     DATA_MAX_NAME_LEN := DATA_MAX_NAME_LEN E;
     hostname_g := hostname_g E;
     interval_g := interval_g E;
     sizeof_getinfo := sizeof_getinfo E;
     sizeof_get_services := sizeof_get_services E;
     sizeof_service_entry := sizeof_service_entry E;
     sizeof_get_dests := sizeof_get_dests E;
     sizeof_dest_entry := sizeof_dest_entry E;
     sstrerror := sstrerror E;
     dead_errbuf := stale;
     sys_socket := sys_socket E;
     sys_malloc := sys_malloc E;
     sys_time := sys_time E;
     sys_get_info := sys_get_info E;
     sys_get_services := sys_get_services E;
     sys_get_dests := sys_get_dests E |}.

(** The three value lists of one entity. *)
Record entity_group : Type := {
  eg_pi : string;
  eg_ti : string;
  eg_stats : ip_vs_stats_user;
  eg_t1 : Z;
  eg_t2 : Z;
  eg_t3 : Z
}.

Definition group_samples (E : environment) (g : entity_group)
  : list sample :=
  entity_samples E (eg_pi g) (eg_ti g) (eg_stats g)
    (eg_t1 g) (eg_t2 g) (eg_t3 g).

(** The run dispatched whole groups of three value lists. *)
Definition in_triples (E : environment) (st st' : state) : Prop :=
  exists groups, dispatches (flat_map (group_samples E) groups) st st'.

(** The run dispatched whole groups of three value lists, each of a group
    that satisfies [Q]. *)
Definition in_groups (E : environment) (Q : entity_group -> Prop)
  (st st' : state) : Prop :=
  exists groups,
    dispatches (flat_map (group_samples E) groups) st st' /\
    Forall Q groups.

(** The group of the service [se] itself: its identifier, the type
    instance total and its counters. *)
Definition service_group (E : environment) (se : ip_vs_service_entry)
  (g : entity_group) : Prop :=
  eg_pi g = pi_text (host_order E) se /\
  eg_ti g = "total" /\
  eg_stats g = se_stats se.

(** The group of a destination of the table fetched for [se]: the
    identifier of [se], the identifier of the destination and the counters
    of the destination. *)
Definition dest_group (E : environment) (se : ip_vs_service_entry)
  (g : entity_group) : Prop :=
  eg_pi g = pi_text (host_order E) se /\
  exists st dests de,
    fst (ipvs_get_dests E se st) = Returned (Some dests) /\
    In de (gd_entrytable dests) /\
    eg_ti g = ti_text (host_order E) de /\
    eg_stats g = de_stats de.

(** The group of a service of [table] or of one of its destinations. *)
Definition cycle_group (E : environment) (table : list ip_vs_service_entry)
  (g : entity_group) : Prop :=
  exists se, In se table /\ (service_group E se g \/ dest_group E se g).

(** What every dispatched sample looks like. *)
Definition well_formed_sample (E : environment) (s : sample) : Prop :=
  vl_plugin (snd s) = "ipvs" /\
  vl_host (snd s) = hostname_g E /\
  vl_interval (snd s) = interval_g E /\
  ((fst s = "connections" /\ List.length (vl_values (snd s)) = 1%nat) \/
   ((fst s = "if_packets" \/ fst s = "if_octets") /\
    List.length (vl_values (snd s)) = 2%nat)).

(** The same host when the destination fetch answers with [fetch]. *)
Definition with_get_dests
  (fetch : list syscall -> Z -> ip_vs_get_dests -> Z -> Z + ip_vs_get_dests)
  (E : environment) : environment :=
  {| host_order := host_order E;
     DATA_MAX_NAME_LEN := DATA_MAX_NAME_LEN E;
     hostname_g := hostname_g E;
     interval_g := interval_g E;
     sizeof_getinfo := sizeof_getinfo E;
     sizeof_get_services := sizeof_get_services E;
     sizeof_service_entry := sizeof_service_entry E;
     sizeof_get_dests := sizeof_get_dests E;
     sizeof_dest_entry := sizeof_dest_entry E;
     sstrerror := sstrerror E;
     dead_errbuf := dead_errbuf E;
     sys_socket := sys_socket E;
     sys_malloc := sys_malloc E;
     sys_time := sys_time E;
     sys_get_info := sys_get_info E;
     sys_get_services := sys_get_services E;
     sys_get_dests := fetch |}.

(** A kernel that answers every service table request with the service
    TCP 10.0.0.1:80 and every destination request with the destination
    10.0.0.2:8080. *)
Definition steady_kernel : environment :=
  with_get_dests
    (fun _ _ request _ =>
       inr {| gd_protocol := gd_protocol request;
              gd_addr := gd_addr request;
              gd_port := gd_port request;
              gd_fwmark := gd_fwmark request;
              gd_num_dests := 1;
              gd_entrytable := [dest_10_0_0_2 LittleEndian] |})
    (with_get_services
       (fun _ _ _ _ =>
          inr {| gs_num_services := 1;
                 gs_entrytable := [service_10_0_0_1 LittleEndian] |})
       (fixed_kernel LittleEndian 64
          [(service_10_0_0_1 LittleEndian,
            inr [dest_10_0_0_2 LittleEndian])])).

(** The round trip kernel: the service TCP 10.0.0.1:80 with the
    destination 10.0.0.2:8080. *)
Definition round_trip_kernel : environment :=
  fixed_kernel LittleEndian 64
    [(service_10_0_0_1 LittleEndian, inr [dest_10_0_0_2 LittleEndian])].

(** A kernel without services. *)
Definition empty_kernel : environment := fixed_kernel LittleEndian 64 [].

(** The numbers [start], [start + 1], ... ([count] of them) have at most
    [digits] decimal digits. *)
Fixpoint utoa_length_at_most (count : nat) (start : Z) (digits : nat)
  : bool :=
  match count with
  | O => true
  | S count' =>
      (String.length (utoa start) <=? digits)%nat
      && utoa_length_at_most count' (start + 1) digits
  end.

(** * Proofs *)

(** ** Formatting into a buffer *)

Lemma substring_whole (s : string) (n : nat) :
  (String.length s <= n)%nat -> substring 0 n s = s.
Proof.
  revert n; induction s as [|c s IH]; intros [|n] H; simpl in *;
    try reflexivity; try lia.
  f_equal; apply IH; lia.
Qed.

Lemma snprintf_fits (buf : cbuf) (size : Z) (text : string) :
  Z.of_nat (String.length text) < size ->
  snprintf buf size text = (Cstr text, Z.of_nat (String.length text)).
Proof.
  intros H; unfold snprintf.
  destruct (Z.ltb_spec 0 size) as [_|Hle]; [|lia].
  rewrite substring_whole by lia; reflexivity.
Qed.

Lemma snprintf_truncates (buf : cbuf) (size : Z) (text : string) :
  0 < size ->
  snprintf buf size text =
  (Cstr (substring 0 (Z.to_nat (size - 1)) text),
   Z.of_nat (String.length text)).
Proof.
  intros H; unfold snprintf.
  destruct (Z.ltb_spec 0 size) as [_|Hle]; [reflexivity|lia].
Qed.

Lemma length_test_fits (size len : Z) :
  0 <= len < size -> (len <? 0) || (size <=? len) = false.
Proof.
  intros H. destruct (Z.ltb_spec len 0); destruct (Z.leb_spec size len);
    simpl; try reflexivity; lia.
Qed.

Lemma length_test_truncated (size len : Z) :
  size <= len -> (len <? 0) || (size <=? len) = true.
Proof.
  intros H. destruct (Z.ltb_spec len 0); destruct (Z.leb_spec size len);
    simpl; try reflexivity; lia.
Qed.

Section Builders.

Variable E : environment.

Lemma get_pi_fits (se : ip_vs_service_entry) (buf : cbuf) (size : Z)
  (st : state) :
  Z.of_nat (String.length (pi_text (host_order E) se)) < size ->
  get_pi E (Some se) (Some buf) size st =
  (Returned (0, Some (Cstr (pi_text (host_order E) se))), st).
Proof.
  intros H; unfold get_pi.
  rewrite snprintf_fits by exact H.
  rewrite length_test_fits by lia. reflexivity.
Qed.

Lemma get_pi_truncated (se : ip_vs_service_entry) (buf : cbuf) (size : Z)
  (st : state) :
  0 < size <= Z.of_nat (String.length (pi_text (host_order E) se)) ->
  let kept := substring 0 (Z.to_nat (size - 1)) (pi_text (host_order E) se) in
  get_pi E (Some se) (Some buf) size st =
  (Returned (-1, Some (Cstr kept)),
   add_errlog ("ipvs: plugin instance truncated: " ++ kept) st).
Proof.
  intros H kept; unfold get_pi.
  rewrite snprintf_truncates by lia.
  rewrite length_test_truncated by lia. reflexivity.
Qed.

Lemma get_ti_fits (de : ip_vs_dest_entry) (buf : cbuf) (size : Z)
  (st : state) :
  Z.of_nat (String.length (ti_text (host_order E) de)) < size ->
  get_ti E (Some de) (Some buf) size st =
  (Returned (0, Some (Cstr (ti_text (host_order E) de))), st).
Proof.
  intros H; unfold get_ti.
  rewrite snprintf_fits by exact H.
  rewrite length_test_fits by lia. reflexivity.
Qed.

Lemma get_ti_truncated (de : ip_vs_dest_entry) (buf : cbuf) (size : Z)
  (st : state) :
  0 < size <= Z.of_nat (String.length (ti_text (host_order E) de)) ->
  let kept := substring 0 (Z.to_nat (size - 1)) (ti_text (host_order E) de) in
  get_ti E (Some de) (Some buf) size st =
  (Returned (-1, Some (Cstr kept)),
   add_errlog ("ipvs: type instance truncated: " ++ kept) st).
Proof.
  intros H kept; unfold get_ti.
  rewrite snprintf_truncates by lia.
  rewrite length_test_truncated by lia. reflexivity.
Qed.

(** A builder that returns 0 for an entity has stored the whole text and
    done nothing else; otherwise it has dispatched nothing. *)
Lemma get_pi_cases (se : ip_vs_service_entry) (buf : cbuf) (size : Z)
  (st : state) :
  get_pi E (Some se) (Some buf) size st =
    (Returned (0, Some (Cstr (pi_text (host_order E) se))), st) /\
    Z.of_nat (String.length (pi_text (host_order E) se)) < size
  \/
  (forall p, fst (get_pi E (Some se) (Some buf) size st) <> Returned (0, p)) /\
    quiet st (snd (get_pi E (Some se) (Some buf) size st)) /\
    size <= Z.of_nat (String.length (pi_text (host_order E) se)).
Proof.
  destruct (Z.lt_ge_cases (Z.of_nat (String.length (pi_text (host_order E) se)))
              size) as [Hfit|Hcut].
  - left; split; [apply get_pi_fits|]; assumption.
  - right. destruct (Z.lt_ge_cases 0 size) as [Hpos|Hzero].
    + pose proof (get_pi_truncated se buf size st (conj Hpos Hcut)) as Heq.
      cbv zeta in Heq; rewrite Heq; simpl.
      repeat split; [intros p; discriminate | assumption].
    + unfold get_pi, snprintf.
      destruct (Z.ltb_spec 0 size) as [Hlt|_]; [lia|].
      rewrite length_test_truncated by lia.
      destruct buf; simpl;
        repeat split; try (intros p; discriminate); assumption.
Qed.

Lemma get_ti_cases (de : ip_vs_dest_entry) (buf : cbuf) (size : Z)
  (st : state) :
  get_ti E (Some de) (Some buf) size st =
    (Returned (0, Some (Cstr (ti_text (host_order E) de))), st) /\
    Z.of_nat (String.length (ti_text (host_order E) de)) < size
  \/
  (forall p, fst (get_ti E (Some de) (Some buf) size st) <> Returned (0, p)) /\
    quiet st (snd (get_ti E (Some de) (Some buf) size st)) /\
    size <= Z.of_nat (String.length (ti_text (host_order E) de)).
Proof.
  destruct (Z.lt_ge_cases (Z.of_nat (String.length (ti_text (host_order E) de)))
              size) as [Hfit|Hcut].
  - left; split; [apply get_ti_fits|]; assumption.
  - right. destruct (Z.lt_ge_cases 0 size) as [Hpos|Hzero].
    + pose proof (get_ti_truncated de buf size st (conj Hpos Hcut)) as Heq.
      cbv zeta in Heq; rewrite Heq; simpl.
      repeat split; [intros p; discriminate | assumption].
    + unfold get_ti, snprintf.
      destruct (Z.ltb_spec 0 size) as [Hlt|_]; [lia|].
      rewrite length_test_truncated by lia.
      destruct buf; simpl;
        repeat split; try (intros p; discriminate); assumption.
Qed.

End Builders.

(** ** Relations that every run preserves *)

Section Steps.

Variable R : state -> state -> Prop.
Hypothesis R_refl : forall st, R st st.
Hypothesis R_trans : forall st1 st2 st3, R st1 st2 -> R st2 st3 -> R st1 st3.

Lemma steps_ret {A : Type} (a : A) : steps R (ret a).
Proof. intros st; apply R_refl. Qed.

Lemma steps_exit {A : Type} (status : Z) : steps R (@exit A status).
Proof. intros st; apply R_refl. Qed.

Lemma steps_fault {A : Type} : steps R (@fault A).
Proof. intros st; apply R_refl. Qed.

Lemma steps_get : steps R get.
Proof. intros st; apply R_refl. Qed.

Lemma steps_bind {A B : Type} (m : M A) (f : A -> M B) :
  steps R m -> (forall a, steps R (f a)) -> steps R (bind m f).
Proof.
  intros Hm Hf st; unfold bind.
  specialize (Hm st).
  destruct (m st) as [[a|status|] st1]; simpl in *; try exact Hm.
  eapply R_trans; [exact Hm | apply Hf].
Qed.

Lemma steps_modify (f : state -> state) :
  (forall st, R st (f st)) -> steps R (modify f).
Proof. intros H st; apply H. Qed.

Lemma steps_call {A : Type} (c : syscall) (answer : list syscall -> A) :
  (forall st, R st (add_history c st)) -> steps R (call c answer).
Proof. intros H st; apply H. Qed.

Lemma steps_read_cstr (p : option cbuf) : steps R (read_cstr p).
Proof.
  destruct p as [[|s]|]; simpl;
    [apply steps_fault | apply steps_ret | apply steps_fault].
Qed.

Lemma steps_for_each_entry {A : Type} (table : list A) (body : A -> M unit)
  (count i : nat) :
  (forall a, In a table -> steps R (body a)) ->
  steps R (for_each_entry table i count body).
Proof.
  intros Hbody; revert i; induction count as [|count IH]; intros i; simpl.
  - apply steps_ret.
  - destruct (nth_error table i) as [a|] eqn:Hnth.
    + apply steps_bind; [|intros _; apply IH].
      apply Hbody; eapply nth_error_In; exact Hnth.
    + apply steps_fault.
Qed.

End Steps.

Lemma steps_weaken (R R' : state -> state -> Prop) {A : Type} (m : M A) :
  (forall st st', R st st' -> R' st st') -> steps R m -> steps R' m.
Proof. intros H Hm st; apply H, Hm. Qed.

(** One round of a loop whose body returns. *)
Lemma for_each_entry_step {A : Type} (table : list A) (body : A -> M unit)
  (i count : nat) (a : A) (st st' : state) :
  nth_error table i = Some a ->
  body a st = (Returned tt, st') ->
  for_each_entry table i (S count) body st =
  for_each_entry table (S i) count body st'.
Proof.
  intros Hnth Hbody; simpl; rewrite Hnth; unfold bind; rewrite Hbody.
  reflexivity.
Qed.

(** One round of a loop whose body ends the process. *)
Lemma for_each_entry_exit {A : Type} (table : list A) (body : A -> M unit)
  (i count : nat) (a : A) (st st' : state) (status : Z) :
  nth_error table i = Some a ->
  body a st = (Exited status, st') ->
  for_each_entry table i (S count) body st = (Exited status, st').
Proof.
  intros Hnth Hbody; simpl; rewrite Hnth; unfold bind; rewrite Hbody.
  reflexivity.
Qed.

(** ** Dispatching *)

Lemma quiet_refl (st : state) : quiet st st.
Proof. reflexivity. Qed.

Lemma quiet_trans (st1 st2 st3 : state) :
  quiet st1 st2 -> quiet st2 st3 -> quiet st1 st3.
Proof. unfold quiet; intros H1 H2; congruence. Qed.

Lemma emits_refl (Q : sample -> Prop) (st : state) : emits Q st st.
Proof.
  exists []; split; [unfold dispatches; rewrite app_nil_r; reflexivity|].
  constructor.
Qed.

Lemma emits_trans (Q : sample -> Prop) (st1 st2 st3 : state) :
  emits Q st1 st2 -> emits Q st2 st3 -> emits Q st1 st3.
Proof.
  intros (n1 & H1 & Q1) (n2 & H2 & Q2); exists (n1 ++ n2)%list; split.
  - unfold dispatches in *; rewrite H2, H1, app_assoc; reflexivity.
  - apply Forall_app; split; assumption.
Qed.

Lemma quiet_emits (Q : sample -> Prop) (st st' : state) :
  quiet st st' -> emits Q st st'.
Proof.
  intros H; exists []; split; [|constructor].
  unfold dispatches; rewrite app_nil_r; exact H.
Qed.

Lemma emits_weaken (Q Q' : sample -> Prop) (st st' : state) :
  (forall s, Q s -> Q' s) -> emits Q st st' -> emits Q' st st'.
Proof.
  intros H (new & Hd & HQ); exists new; split; [exact Hd|].
  eapply Forall_impl; [exact H | exact HQ].
Qed.

Lemma emits_dispatch (Q : sample -> Prop) (type : string)
  (vl : value_list_t) :
  Q (type, vl) -> steps (emits Q) (plugin_dispatch_values type vl).
Proof.
  intros H st; exists [(type, vl)]; split; [reflexivity|].
  constructor; [exact H | constructor].
Qed.

(** Runs that dispatch nothing: the structure of the computation is
    followed, every primitive but [plugin_dispatch_values] is quiet. *)
Ltac quiet_step :=
  first
    [ apply (steps_bind quiet quiet_trans); [| intros ?]
    | apply (steps_ret quiet quiet_refl)
    | apply (steps_exit quiet quiet_refl)
    | apply (steps_fault quiet quiet_refl)
    | apply (steps_get quiet quiet_refl)
    | apply (steps_read_cstr quiet quiet_refl)
    | apply steps_modify; intros ?; reflexivity
    | apply steps_call; intros ?; reflexivity
    | match goal with
      | |- steps _ (if ?b then _ else _) => destruct b
      | |- steps _ (match ?x with _ => _ end) => destruct x
      end ].

Section Fetches.

Variable E : environment.

Lemma log_err_quiet (msg : string) : steps quiet (log_err msg).
Proof. intros st; reflexivity. Qed.

Lemma ipvs_strerror_quiet (err : Z) : steps quiet (ipvs_strerror E err).
Proof. unfold ipvs_strerror; repeat quiet_step. Qed.

Lemma log_err_s_quiet (format : string) (msg : strerror_result) :
  steps quiet (log_err_s E format msg).
Proof. intros st; destruct msg; reflexivity. Qed.

Lemma ipvs_get_services_quiet : steps quiet (ipvs_get_services E).
Proof.
  unfold ipvs_get_services;
    repeat first [apply log_err_quiet | apply log_err_s_quiet
                 | apply ipvs_strerror_quiet | quiet_step].
Qed.

Lemma ipvs_get_dests_quiet (se : ip_vs_service_entry) :
  steps quiet (ipvs_get_dests E se).
Proof.
  unfold ipvs_get_dests;
    repeat first [apply log_err_quiet | apply log_err_s_quiet
                 | apply ipvs_strerror_quiet | quiet_step].
Qed.

End Fetches.

(** ** NULL arguments of the identifier builders *)

(** C10: called with a NULL entity or a NULL buffer, [get_pi] and [get_ti]
    return 0 and leave the buffer and the state as they were: nothing is
    stored and nothing is logged.  With the uninitialised local array of
    the callers the buffer is still uninitialised after the call. *)
Theorem builders_return_0_on_null :
  forall (E : environment) (se : option ip_vs_service_entry)
    (de : option ip_vs_dest_entry) (buf : option cbuf) (size : Z)
    (st : state),
    get_pi E None buf size st = (Returned (0, buf), st) /\
    get_pi E se None size st = (Returned (0, None), st) /\
    get_ti E None buf size st = (Returned (0, buf), st) /\
    get_ti E de None size st = (Returned (0, None), st) /\
    get_pi E None (Some Uninit) size st = (Returned (0, Some Uninit), st) /\
    get_ti E None (Some Uninit) size st = (Returned (0, Some Uninit), st).
Proof.
  intros E se de buf size st; repeat split; try reflexivity.
  - destruct se; reflexivity.
  - destruct de; reflexivity.
Qed.

(** ** A service table fetch that fails *)

(** C5: when the buffer of the service table is allocated and the kernel
    refuses the request, [cipvs_read] returns -1, nothing is dispatched and
    the error is logged; the process neither exits nor faults. *)
Theorem failed_service_fetch_fails_the_read :
  forall (E : environment) (st : state) (errno : Z),
    let num_services := gi_num_services (ipvs_info st) in
    let len := services_len E num_services in
    sys_malloc E (history st) len = true ->
    sys_get_services E (history st ++ [SysMalloc len])%list (sockfd st)
      num_services len = inl errno ->
    fst (cipvs_read E st) = Returned (-1) /\
    dispatched (snd (cipvs_read E st)) = dispatched st /\
    exists msg,
      errlog (snd (cipvs_read E st)) =
      (errlog st ++
       [("ipvs: ipvs_get_services: getsockopt failed: " ++ msg)%string])%list.
Proof.
  intros E st errno num_services len Hmalloc Hfetch.
  unfold cipvs_read, ipvs_get_services, bind, get, call, modify.
  fold num_services; fold len.
  rewrite Hmalloc; cbn [negb add_history history sockfd set_ipvs_func].
  rewrite Hfetch.
  unfold ipvs_strerror, bind, get.
  destruct (find _ strerror_table) as [[[func e] message]|];
    cbn; repeat split; eexists; reflexivity.
Qed.

Lemma failed_service_fetch_fails_the_read_witness :
  let E :=
    with_get_services (fun _ _ _ _ => inl ESRCH)
      (fixed_kernel LittleEndian 64
         [(service_10_0_0_1 LittleEndian, inr [dest_10_0_0_2 LittleEndian])]) in
  fst (first_cycle E) = Returned (-1) /\
  dispatched (snd (first_cycle E)) = [].
Proof.
  intros E.
  destruct (failed_service_fetch_fails_the_read E (after_init E) ESRCH)
    as (Hret & Hquiet & _); [reflexivity | reflexivity |].
  split; [exact Hret | exact Hquiet].
Defined.

(** ** Memory exhaustion *)

(** C6: when the allocation of the service table's buffer fails,
    [ipvs_get_services], and the read with it, logs the failure and ends
    the process with [exit (3)].  Independently, when the allocation of a
    destination table's buffer fails, [ipvs_get_dests] logs the failure
    and ends the process with [exit (3)], and with it the submission of
    the service and the loop over the services that reached it.  Neither
    half needs the other allocation to fail. *)
Theorem out_of_memory_exits :
  forall E : environment,
    (forall st : state,
        sys_malloc E (history st)
          (services_len E (gi_num_services (ipvs_info st))) = false ->
        fst (ipvs_get_services E st) = Exited 3 /\
        fst (cipvs_read E st) = Exited 3 /\
        dispatched (snd (cipvs_read E st)) = dispatched st /\
        errlog (snd (cipvs_read E st)) =
          (errlog st ++ ["ipvs: ipvs_get_services: Out of memory."])%list)
    /\
    (forall (se : ip_vs_service_entry) (st : state),
        sys_malloc E (history st) (dests_len E (se_num_dests se)) = false ->
        fst (ipvs_get_dests E se st) = Exited 3 /\
        fst (cipvs_submit_service E se st) = Exited 3 /\
        dispatched (snd (cipvs_submit_service E se st)) = dispatched st /\
        errlog (snd (cipvs_submit_service E se st)) =
          (errlog st ++ ["ipvs: ipvs_get_dests: Out of memory."])%list /\
        forall (table : list ip_vs_service_entry) (i count : nat),
          nth_error table i = Some se ->
          fst (for_each_entry table i (S count) (cipvs_submit_service E) st) =
            Exited 3).
Proof.
  intros E; split.
  - intros st Hservices.
    assert (Hs : ipvs_get_services E st =
                 (Exited 3,
                  add_errlog "ipvs: ipvs_get_services: Out of memory."
                    (add_history
                       (SysMalloc
                          (services_len E (gi_num_services (ipvs_info st))))
                       st))).
    { unfold ipvs_get_services, bind, get, call.
      rewrite Hservices; reflexivity. }
    split; [rewrite Hs; reflexivity|].
    unfold cipvs_read, bind; rewrite Hs; repeat split.
  - intros se st Hdests.
    assert (Hd : ipvs_get_dests E se st =
                 (Exited 3,
                  add_errlog "ipvs: ipvs_get_dests: Out of memory."
                    (add_history (SysMalloc (dests_len E (se_num_dests se)))
                       st))).
    { unfold ipvs_get_dests, bind, call.
      rewrite Hdests; reflexivity. }
    assert (Hsub : cipvs_submit_service E se st =
                   (Exited 3,
                    add_errlog "ipvs: ipvs_get_dests: Out of memory."
                      (add_history (SysMalloc (dests_len E (se_num_dests se)))
                         st))).
    { unfold cipvs_submit_service, bind at 1; rewrite Hd; reflexivity. }
    split; [rewrite Hd; reflexivity|].
    split; [rewrite Hsub; reflexivity|].
    split; [rewrite Hsub; reflexivity|].
    split; [rewrite Hsub; reflexivity|].
    intros table i count Hnth.
    rewrite (for_each_entry_exit _ _ _ _ _ _ _ _ Hnth Hsub); reflexivity.
Qed.

Lemma out_of_memory_exits_witness :
  let K :=
    fixed_kernel LittleEndian 64
      [(service_10_0_0_1 LittleEndian, inr [dest_10_0_0_2 LittleEndian])] in
  let no_service_table := with_malloc (fun _ len => negb (len =? 112)) K in
  let no_dest_table := with_malloc (fun _ len => negb (len =? 120)) K in
  fst (first_cycle no_service_table) = Exited 3 /\
  fst (cipvs_submit_service no_dest_table (service_10_0_0_1 LittleEndian)
         (snd (ipvs_get_services no_dest_table (after_init no_dest_table)))) =
    Exited 3.
Proof.
  intros K no_service_table no_dest_table; split.
  - destruct (out_of_memory_exits no_service_table) as [Hs _].
    destruct (Hs (after_init no_service_table) eq_refl) as (_ & Hread & _).
    exact Hread.
  - destruct (out_of_memory_exits no_dest_table) as [_ Hd].
    destruct (Hd (service_10_0_0_1 LittleEndian)
                (snd (ipvs_get_services no_dest_table
                        (after_init no_dest_table))) eq_refl)
      as (_ & Hsubmit & _).
    exact Hsubmit.
Defined.

(** ** Submitting one entity *)

Section Submit.

Variable E : environment.

(** The three submit calls for an entity with plugin instance [pi] and a
    type instance that reads [name]. *)
Lemma submit_entity_run (pi name : string) (ti : option cbuf)
  (stats : ip_vs_stats_user) (st : state) :
  type_instance_of ti = ret name ->
  exists t1 t2 t3 st',
    (cipvs_submit_connections E (Some (Cstr pi)) ti (conns stats) ;;
     cipvs_submit_if E (Some (Cstr pi)) "if_packets" ti
       (inpkts stats) (outpkts stats) ;;
     cipvs_submit_if E (Some (Cstr pi)) "if_octets" ti
       (inbytes stats) (outbytes stats)) st = (Returned tt, st') /\
    dispatches (entity_samples E pi name stats t1 t2 t3) st st' /\
    errlog st' = errlog st /\
    ipvs_info st' = ipvs_info st.
Proof.
  intros Hti.
  unfold cipvs_submit_connections, cipvs_submit_if, bind, call.
  rewrite Hti; cbn [read_cstr ret plugin_dispatch_values modify].
  do 4 eexists; split; [reflexivity|].
  unfold dispatches, entity_samples; cbn [dispatched add_dispatched add_history
    errlog ipvs_info].
  rewrite <- !app_assoc; repeat split.
Qed.

(** A destination whose identifier fits. *)
Lemma cipvs_submit_dest_fits (pi : string) (de : ip_vs_dest_entry)
  (st : state) :
  Z.of_nat (String.length (ti_text (host_order E) de)) < DATA_MAX_NAME_LEN E ->
  exists t1 t2 t3 st',
    cipvs_submit_dest E (Some (Cstr pi)) de st = (Returned tt, st') /\
    dispatches
      (entity_samples E pi (ti_text (host_order E) de) (de_stats de) t1 t2 t3)
      st st' /\
    errlog st' = errlog st.
Proof.
  intros Hfit.
  destruct (submit_entity_run pi (ti_text (host_order E) de)
              (Some (Cstr (ti_text (host_order E) de))) (de_stats de) st
              eq_refl) as (t1 & t2 & t3 & st' & Hrun & Hd & Hlog & _).
  exists t1, t2, t3, st'; split; [|split; assumption].
  unfold cipvs_submit_dest; unfold bind at 1.
  rewrite get_ti_fits by exact Hfit.
  cbn [Z.eqb negb]; exact Hrun.
Qed.

(** A destination whose identifier does not fit. *)
Lemma cipvs_submit_dest_truncated (pi : option cbuf) (de : ip_vs_dest_entry)
  (st : state) :
  0 < DATA_MAX_NAME_LEN E
    <= Z.of_nat (String.length (ti_text (host_order E) de)) ->
  let kept :=
    substring 0 (Z.to_nat (DATA_MAX_NAME_LEN E - 1))
      (ti_text (host_order E) de) in
  cipvs_submit_dest E pi de st =
  (Returned tt, add_errlog ("ipvs: type instance truncated: " ++ kept) st).
Proof.
  intros Hcut kept.
  unfold cipvs_submit_dest; unfold bind at 1.
  pose proof (get_ti_truncated E de Uninit (DATA_MAX_NAME_LEN E) st Hcut)
    as Heq.
  cbv zeta in Heq; rewrite Heq; reflexivity.
Qed.

(** A service whose identifier fits: its own three value lists are
    dispatched after the destination fetch, then the destination table is
    read. *)
Lemma cipvs_submit_service_fits (se : ip_vs_service_entry)
  (d : option ip_vs_get_dests) (st st1 : state) :
  ipvs_get_dests E se st = (Returned d, st1) ->
  Z.of_nat (String.length (pi_text (host_order E) se)) < DATA_MAX_NAME_LEN E ->
  exists t1 t2 t3 st2,
    dispatches
      (entity_samples E (pi_text (host_order E) se) "total" (se_stats se)
         t1 t2 t3) st1 st2 /\
    errlog st2 = errlog st1 /\
    cipvs_submit_service E se st =
    match d with
    | None => (Fault, st2)
    | Some dests =>
        for_each_entry (gd_entrytable dests) 0
          (Z.to_nat (gd_num_dests dests))
          (cipvs_submit_dest E (Some (Cstr (pi_text (host_order E) se)))) st2
    end.
Proof.
  intros Hfetch Hfit.
  destruct (submit_entity_run (pi_text (host_order E) se) "total" None
              (se_stats se) st1 eq_refl)
    as (t1 & t2 & t3 & st2 & Hrun & Hd & Hlog & _).
  exists t1, t2, t3, st2; split; [exact Hd|split; [exact Hlog|]].
  unfold cipvs_submit_service; unfold bind at 1; rewrite Hfetch.
  unfold bind at 1; rewrite get_pi_fits by exact Hfit.
  cbn [Z.eqb negb].
  unfold bind at 1 2 in Hrun.
  unfold bind at 1 2 3.
  destruct (cipvs_submit_connections E _ None _ st1) as [[[]|c|] sa];
    try discriminate.
  destruct (cipvs_submit_if E _ "if_packets" None _ _ sa) as [[[]|c|] sb];
    try discriminate.
  destruct (cipvs_submit_if E _ "if_octets" None _ _ sb) as [[[]|c|] sc];
    try discriminate.
  injection Hrun as ->.
  destruct d; reflexivity.
Qed.

(** A service whose identifier does not fit: after the destination fetch
    the truncation is logged and the function returns. *)
Lemma cipvs_submit_service_truncated (se : ip_vs_service_entry)
  (d : option ip_vs_get_dests) (st st1 : state) :
  ipvs_get_dests E se st = (Returned d, st1) ->
  0 < DATA_MAX_NAME_LEN E
    <= Z.of_nat (String.length (pi_text (host_order E) se)) ->
  let kept :=
    substring 0 (Z.to_nat (DATA_MAX_NAME_LEN E - 1))
      (pi_text (host_order E) se) in
  cipvs_submit_service E se st =
  (Returned tt, add_errlog ("ipvs: plugin instance truncated: " ++ kept) st1).
Proof.
  intros Hfetch Hcut kept.
  unfold cipvs_submit_service; unfold bind at 1; rewrite Hfetch.
  unfold bind at 1.
  pose proof (get_pi_truncated E se Uninit (DATA_MAX_NAME_LEN E) st1 Hcut)
    as Heq.
  cbv zeta in Heq; rewrite Heq; reflexivity.
Qed.

End Submit.

(** ** A destination fetch that fails *)

(** A destination fetch that returns NULL for a service whose identifier
    fits: the three samples of the service are dispatched, then
    [dests->num_dests] is read through the NULL pointer. *)
Lemma cipvs_submit_service_null_dests (E : environment)
  (se : ip_vs_service_entry) (st : state) :
  fst (ipvs_get_dests E se st) = Returned None ->
  Z.of_nat (String.length (pi_text (host_order E) se)) < DATA_MAX_NAME_LEN E ->
  fst (cipvs_submit_service E se st) = Fault /\
  exists t1 t2 t3,
    dispatches
      (entity_samples E (pi_text (host_order E) se) "total" (se_stats se)
         t1 t2 t3) st (snd (cipvs_submit_service E se st)).
Proof.
  intros Hnull Hfit.
  destruct (ipvs_get_dests E se st) as [o st1] eqn:Hfetch.
  simpl in Hnull; subst o.
  destruct (cipvs_submit_service_fits E se None st st1 Hfetch Hfit)
    as (t1 & t2 & t3 & st2 & Hd & _ & Hrun).
  rewrite Hrun; split; [reflexivity|].
  exists t1, t2, t3; unfold dispatches in *; simpl.
  pose proof (ipvs_get_dests_quiet E se st) as Hq.
  rewrite Hfetch in Hq; unfold quiet in Hq; simpl in Hq.
  rewrite Hd, Hq; reflexivity.
Qed.

(** C1: on a kernel that refuses the destination fetch of the first of two
    services, the poll cycle dispatches the three samples of that service
    and no destination sample, and then faults on the NULL destination
    table: [cipvs_read] does not return and nothing is dispatched for the
    second service. *)
Theorem failed_dest_fetch_faults_the_cycle :
  fst (cipvs_init stale_service_kernel initial_state) = Returned 0 /\
  fst (ipvs_get_dests stale_service_kernel (service_10_0_0_1 LittleEndian)
         (snd (ipvs_get_services stale_service_kernel
                 (after_init stale_service_kernel)))) = Returned None /\
  fst (first_cycle stale_service_kernel) = Fault /\
  map sample_summary (dispatched (snd (first_cycle stale_service_kernel))) =
    [ ("connections", "10.0.0.1_TCP80", "total", [5]);
      ("if_packets", "10.0.0.1_TCP80", "total", [10; 20]);
      ("if_octets", "10.0.0.1_TCP80", "total", [100; 200]) ] /\
  pi_text LittleEndian (service_192_168_100_200 LittleEndian) =
    "192.168.100.200_UDP5353".
Proof. repeat split. Qed.

(** ** The round trip *)

Lemma pi_text_10_0_0_1 (o : byte_order) :
  pi_text o (service_10_0_0_1 o) = "10.0.0.1_TCP80".
Proof. destruct o; reflexivity. Qed.

Lemma ti_text_10_0_0_2 (o : byte_order) :
  ti_text o (dest_10_0_0_2 o) = "10.0.0.2_8080".
Proof. destruct o; reflexivity. Qed.

(** C9: when the service table fetch answers with the one service TCP
    10.0.0.1:80 and the destination fetch with the one destination
    10.0.0.2:8080, both with the counters 5, 10, 20, 100, 200, the poll
    cycle returns 0 and dispatches exactly six samples: connections [5],
    if_packets [10; 20] and if_octets [100; 200] with plugin instance
    10.0.0.1_TCP80 and type instance total, then the same three with type
    instance 10.0.0.2_8080. *)
Theorem round_trip_one_service_one_dest :
  forall (E : environment) (st : state) (services : ip_vs_get_services)
    (dests : ip_vs_get_dests),
    fst (ipvs_get_services E st) = Returned (Some services) ->
    gs_num_services services = 1 ->
    gs_entrytable services = [service_10_0_0_1 (host_order E)] ->
    fst (ipvs_get_dests E (service_10_0_0_1 (host_order E))
           (snd (ipvs_get_services E st))) = Returned (Some dests) ->
    gd_num_dests dests = 1 ->
    gd_entrytable dests = [dest_10_0_0_2 (host_order E)] ->
    14 < DATA_MAX_NAME_LEN E ->
    fst (cipvs_read E st) = Returned 0 /\
    exists new,
      dispatched (snd (cipvs_read E st)) = (dispatched st ++ new)%list /\
      map sample_summary new =
        [ ("connections", "10.0.0.1_TCP80", "total", [5]);
          ("if_packets", "10.0.0.1_TCP80", "total", [10; 20]);
          ("if_octets", "10.0.0.1_TCP80", "total", [100; 200]);
          ("connections", "10.0.0.1_TCP80", "10.0.0.2_8080", [5]);
          ("if_packets", "10.0.0.1_TCP80", "10.0.0.2_8080", [10; 20]);
          ("if_octets", "10.0.0.1_TCP80", "10.0.0.2_8080", [100; 200]) ].
Proof.
  intros E st services dests Hs Hn Htable Hd Hnd Hdtable Hcap.
  set (o := host_order E) in *.
  destruct (ipvs_get_services E st) as [o1 st1] eqn:Hfetch.
  simpl in Hs, Hd; subst o1.
  pose proof (ipvs_get_services_quiet E st) as Hq1.
  rewrite Hfetch in Hq1; unfold quiet in Hq1; simpl in Hq1.
  destruct (ipvs_get_dests E (service_10_0_0_1 o) st1) as [o2 st2] eqn:Hdfetch.
  simpl in Hd; subst o2.
  pose proof (ipvs_get_dests_quiet E (service_10_0_0_1 o) st1) as Hq2.
  rewrite Hdfetch in Hq2; unfold quiet in Hq2; simpl in Hq2.
  assert (Hpi : Z.of_nat (String.length (pi_text (host_order E)
                                           (service_10_0_0_1 o)))
                < DATA_MAX_NAME_LEN E).
  { fold o; rewrite pi_text_10_0_0_1; simpl; lia. }
  assert (Hti : Z.of_nat (String.length (ti_text (host_order E)
                                           (dest_10_0_0_2 o)))
                < DATA_MAX_NAME_LEN E).
  { fold o; rewrite ti_text_10_0_0_2; simpl; lia. }
  destruct (cipvs_submit_service_fits E _ _ st1 st2 Hdfetch Hpi)
    as (t1 & t2 & t3 & st3 & Hsvc & _ & Hrun).
  destruct (cipvs_submit_dest_fits E (pi_text (host_order E)
                                        (service_10_0_0_1 o))
              (dest_10_0_0_2 o) st3 Hti)
    as (u1 & u2 & u3 & st4 & Hdest & Hdst & _).
  assert (Hread : cipvs_read E st = (Returned 0, st4)).
  { unfold cipvs_read; unfold bind at 1; rewrite Hfetch.
    rewrite Hn, Htable; simpl.
    unfold bind at 1 2; rewrite Hrun, Hnd, Hdtable; simpl.
    unfold bind at 1; rewrite Hdest; reflexivity. }
  rewrite Hread; split; [reflexivity|].
  eexists; split.
  - simpl; unfold dispatches in Hsvc, Hdst.
    rewrite Hdst, Hsvc, Hq2, Hq1, <- app_assoc; reflexivity.
  - fold o; rewrite pi_text_10_0_0_1, ti_text_10_0_0_2; reflexivity.
Qed.

Lemma round_trip_one_service_one_dest_witness :
  let E :=
    fixed_kernel LittleEndian 64
      [(service_10_0_0_1 LittleEndian, inr [dest_10_0_0_2 LittleEndian])] in
  fst (first_cycle E) = Returned 0 /\
  List.length (dispatched (snd (first_cycle E))) = 6%nat.
Proof.
  intros E.
  destruct (round_trip_one_service_one_dest E (after_init E)
              {| gs_num_services := 1;
                 gs_entrytable := [service_10_0_0_1 LittleEndian] |}
              {| gd_protocol := IPPROTO_TCP;
                 gd_addr := in_addr_of LittleEndian 10 0 0 1;
                 gd_port := htons LittleEndian 80;
                 gd_fwmark := 0;
                 gd_num_dests := 1;
                 gd_entrytable := [dest_10_0_0_2 LittleEndian] |})
    as (Hret & new & Hnew & Hsum);
    [reflexivity | reflexivity | reflexivity | reflexivity | reflexivity
    | reflexivity | simpl; lia |].
  split; [exact Hret|].
  unfold first_cycle; rewrite Hnew, length_app.
  rewrite <- (length_map sample_summary new), Hsum; reflexivity.
Defined.

(** ** Identifiers that do not fit *)

(** C7: on a host with a positive identifier capacity, a service whose
    formatted identifier does not fit makes [get_pi] return -1 and log the
    truncation; [cipvs_submit_service] then returns without a dispatch, and
    the loop over the services goes on with the next service.  Likewise a
    destination whose identifier does not fit makes [get_ti] return -1 and
    log, [cipvs_submit_dest] returns without a dispatch and the loop over
    the destinations goes on with the next destination.  Nothing exits or
    faults. *)
Theorem truncated_identifier_skips_the_entity :
  forall E : environment,
    0 < DATA_MAX_NAME_LEN E ->
    (forall (se : ip_vs_service_entry) (d : option ip_vs_get_dests)
       (st st1 : state) (table : list ip_vs_service_entry) (i count : nat),
        DATA_MAX_NAME_LEN E
          <= Z.of_nat (String.length (pi_text (host_order E) se)) ->
        ipvs_get_dests E se st = (Returned d, st1) ->
        nth_error table i = Some se ->
        exists kept,
          let st2 :=
            add_errlog ("ipvs: plugin instance truncated: " ++ kept) st1 in
          get_pi E (Some se) (Some Uninit) (DATA_MAX_NAME_LEN E) st1 =
            (Returned (-1, Some (Cstr kept)), st2) /\
          cipvs_submit_service E se st = (Returned tt, st2) /\
          dispatched st2 = dispatched st /\
          for_each_entry table i (S count) (cipvs_submit_service E) st =
            for_each_entry table (S i) count (cipvs_submit_service E) st2)
    /\
    (forall (de : ip_vs_dest_entry) (pi : option cbuf) (st : state)
       (table : list ip_vs_dest_entry) (i count : nat),
        DATA_MAX_NAME_LEN E
          <= Z.of_nat (String.length (ti_text (host_order E) de)) ->
        nth_error table i = Some de ->
        exists kept,
          let st2 :=
            add_errlog ("ipvs: type instance truncated: " ++ kept) st in
          get_ti E (Some de) (Some Uninit) (DATA_MAX_NAME_LEN E) st =
            (Returned (-1, Some (Cstr kept)), st2) /\
          cipvs_submit_dest E pi de st = (Returned tt, st2) /\
          dispatched st2 = dispatched st /\
          for_each_entry table i (S count) (cipvs_submit_dest E pi) st =
            for_each_entry table (S i) count (cipvs_submit_dest E pi) st2).
Proof.
  intros E Hpos; split.
  - intros se d st st1 table i count Hcut Hfetch Hnth.
    eexists; cbv zeta.
    pose proof (cipvs_submit_service_truncated E se d st st1 Hfetch
                  (conj Hpos Hcut)) as Hrun; cbv zeta in Hrun.
    pose proof (get_pi_truncated E se Uninit (DATA_MAX_NAME_LEN E) st1
                  (conj Hpos Hcut)) as Hpi; cbv zeta in Hpi.
    split; [exact Hpi|]; split; [exact Hrun|]; split.
    + pose proof (ipvs_get_dests_quiet E se st) as Hq.
      rewrite Hfetch in Hq; exact Hq.
    + apply (for_each_entry_step _ _ _ _ _ _ _ Hnth Hrun).
  - intros de pi st table i count Hcut Hnth.
    eexists; cbv zeta.
    pose proof (cipvs_submit_dest_truncated E pi de st (conj Hpos Hcut))
      as Hrun; cbv zeta in Hrun.
    pose proof (get_ti_truncated E de Uninit (DATA_MAX_NAME_LEN E) st
                  (conj Hpos Hcut)) as Hti; cbv zeta in Hti.
    split; [exact Hti|]; split; [exact Hrun|]; split; [reflexivity|].
    apply (for_each_entry_step _ _ _ _ _ _ _ Hnth Hrun).
Qed.

Lemma truncated_identifier_skips_the_entity_witness :
  let E := small_capacity_kernel in
  let st := snd (ipvs_get_services E (after_init E)) in
  fst (cipvs_submit_service E (service_192_168_100_200 LittleEndian) st) =
    Returned tt /\
  fst (cipvs_submit_dest E (Some (Cstr "10.0.0.1_TCP80"))
         (dest_192_168_100_201 LittleEndian) st) = Returned tt.
Proof.
  intros E st.
  assert (Hpos : 0 < DATA_MAX_NAME_LEN E) by reflexivity.
  destruct (truncated_identifier_skips_the_entity E Hpos) as [Hs Hd].
  split.
  - destruct (Hs (service_192_168_100_200 LittleEndian)
                (Some {| gd_protocol := IPPROTO_UDP;
                         gd_addr := in_addr_of LittleEndian 192 168 100 200;
                         gd_port := htons LittleEndian 5353;
                         gd_fwmark := 0;
                         gd_num_dests := 0;
                         gd_entrytable := [] |})
                st
                (snd (ipvs_get_dests E
                        (service_192_168_100_200 LittleEndian) st))
                [service_192_168_100_200 LittleEndian] 0%nat 0%nat)
      as (kept & _ & Hrun & _);
      [vm_compute; discriminate | reflexivity | reflexivity |].
    rewrite Hrun; reflexivity.
  - destruct (Hd (dest_192_168_100_201 LittleEndian)
                (Some (Cstr "10.0.0.1_TCP80")) st
                [dest_192_168_100_201 LittleEndian] 0%nat 0%nat)
      as (kept & _ & Hrun & _);
      [vm_compute; discriminate | reflexivity |].
    rewrite Hrun; reflexivity.
Defined.

(** ** The plugin instance of every sample *)

Lemma entity_samples_named (E : environment) (pi ti : string)
  (stats : ip_vs_stats_user) (t1 t2 t3 : Z) :
  Forall (fun s : sample =>
            vl_plugin_instance (snd s) = pi /\ vl_type_instance (snd s) = ti)
    (entity_samples E pi ti stats t1 t2 t3).
Proof. repeat constructor. Qed.

(** After a builder that did not return 0 the caller returns at once. *)
Lemma failed_builder_quiet (m : M (Z * option cbuf))
  (k : option cbuf -> M unit) (st : state) :
  (forall p, fst (m st) <> Returned (0, p)) ->
  quiet st (snd (m st)) ->
  quiet st
    (snd (bind m (fun r => let '(rc, p) := r in
                           if negb (rc =? 0) then ret tt else k p) st)).
Proof.
  intros Hrc Hq; unfold bind.
  destruct (m st) as [[[rc p]|c|] st1]; simpl in *; try exact Hq.
  destruct (Z.eqb_spec rc 0) as [->|Hne]; simpl; [|exact Hq].
  exfalso; apply (Hrc p); reflexivity.
Qed.

Section Provenance.

Variable E : environment.

(** The samples [cipvs_submit_dest] dispatches for a destination carry the
    plugin instance it was called with and the identifier of the
    destination. *)
Lemma cipvs_submit_dest_emits (pi : string) (de : ip_vs_dest_entry) :
  steps
    (emits (fun s : sample =>
              vl_plugin_instance (snd s) = pi /\
              vl_type_instance (snd s) = ti_text (host_order E) de))
    (cipvs_submit_dest E (Some (Cstr pi)) de).
Proof.
  intros st.
  destruct (get_ti_cases E de Uninit (DATA_MAX_NAME_LEN E) st)
    as [[_ Hfit]|(Hrc & Hq & _)].
  - destruct (cipvs_submit_dest_fits E pi de st Hfit)
      as (t1 & t2 & t3 & st' & Hrun & Hd & _).
    rewrite Hrun; simpl.
    eexists; split; [exact Hd | apply entity_samples_named].
  - apply quiet_emits.
    apply (failed_builder_quiet _ _ st Hrc Hq).
Qed.

(** Every sample dispatched while a service is submitted is a sample of
    the service or of one of the destinations fetched for it. *)
Lemma cipvs_submit_service_emits (se : ip_vs_service_entry) :
  steps (emits (fun s => service_sample E se s \/ dest_sample E se s))
    (cipvs_submit_service E se).
Proof.
  intros st.
  destruct (ipvs_get_dests E se st) as [o st1] eqn:Hfetch.
  pose proof (ipvs_get_dests_quiet E se st) as Hq0.
  rewrite Hfetch in Hq0; simpl in Hq0.
  destruct o as [d|c|].
  - destruct (get_pi_cases E se Uninit (DATA_MAX_NAME_LEN E) st1)
      as [[_ Hfit]|(Hrc & Hq & _)].
    + destruct (cipvs_submit_service_fits E se d st st1 Hfetch Hfit)
        as (t1 & t2 & t3 & st2 & Hd & _ & Hrun).
      rewrite Hrun.
      assert (Hsvc : emits (fun s => service_sample E se s \/
                                     dest_sample E se s) st st2).
      { eexists; split.
        - unfold dispatches in *; rewrite Hd, Hq0; reflexivity.
        - eapply Forall_impl; [|apply entity_samples_named].
          intros s Hs; left; exact Hs. }
      destruct d as [dests|]; [|exact Hsvc].
      eapply emits_trans; [exact Hsvc|].
      apply (steps_for_each_entry _ (emits_refl _) (emits_trans _)).
      intros de Hin.
      eapply steps_weaken; [|apply cipvs_submit_dest_emits].
      intros sa sb; apply emits_weaken.
      intros s [Hpi Hti]; right; split; [exact Hpi|].
      exists st, dests, de; rewrite Hfetch; repeat split; assumption.
    + apply quiet_emits.
      unfold cipvs_submit_service; unfold bind at 1; rewrite Hfetch.
      eapply quiet_trans; [exact Hq0|].
      apply (failed_builder_quiet _ _ st1 Hrc Hq).
  - apply quiet_emits.
    unfold cipvs_submit_service; unfold bind at 1; rewrite Hfetch.
    exact Hq0.
  - apply quiet_emits.
    unfold cipvs_submit_service; unfold bind at 1; rewrite Hfetch.
    exact Hq0.
Qed.

End Provenance.

(** C8: every sample a poll cycle dispatches belongs to a service of the
    fetched service table and carries the identifier of that service as
    its plugin instance: it is either the service's own sample, with type
    instance total, or the sample of a destination of the table fetched for
    that service, with the destination's identifier as type instance.
    This holds however the cycle ends. *)
Theorem dest_samples_carry_the_service_identifier :
  forall (E : environment) (st : state),
    emits
      (fun s =>
         exists services,
           fst (ipvs_get_services E st) = Returned (Some services) /\
           cycle_sample E (gs_entrytable services) s)
      st (snd (cipvs_read E st)).
Proof.
  intros E st.
  unfold cipvs_read; unfold bind at 1.
  pose proof (ipvs_get_services_quiet E st) as Hq.
  destruct (ipvs_get_services E st) as [[[services|]|c|] st1];
    simpl in Hq; try (apply quiet_emits; exact Hq).
  eapply emits_trans; [apply quiet_emits; exact Hq|].
  change (emits
            (fun s =>
               exists services0,
                 fst (Returned (Some services), st1) =
                   Returned (Some services0) /\
                 cycle_sample E (gs_entrytable services0) s)
            st1
            (snd ((for_each_entry (gs_entrytable services) 0
                     (Z.to_nat (gs_num_services services))
                     (cipvs_submit_service E) ;; ret 0) st1))).
  apply (steps_bind _ (emits_trans _)).
  - apply (steps_for_each_entry _ (emits_refl _) (emits_trans _)).
    intros se Hin.
    eapply steps_weaken; [|apply cipvs_submit_service_emits].
    intros sa sb; apply emits_weaken.
    intros s Hs; exists services; split; [reflexivity|].
    exists se; split; assumption.
  - intros _; apply (steps_ret _ (emits_refl _)).
Qed.

(** ** The count the service table fetch is sized for *)

Lemma keeps_info_refl (E : environment) (st : state) : keeps_info E st st.
Proof.
  split; [reflexivity|].
  exists []; split; [rewrite app_nil_r; reflexivity | constructor].
Qed.

Lemma keeps_info_trans (E : environment) (st1 st2 st3 : state) :
  keeps_info E st1 st2 -> keeps_info E st2 st3 -> keeps_info E st1 st3.
Proof.
  intros (Hi1 & n1 & Hh1 & Hs1) (Hi2 & n2 & Hh2 & Hs2); split.
  - congruence.
  - exists (n1 ++ n2)%list; split.
    + rewrite Hh2, Hh1, app_assoc; reflexivity.
    + apply Forall_app; split; [exact Hs1|].
      rewrite Hi1 in Hs2; exact Hs2.
Qed.

(** A step that touches neither [ipvs_info] nor the calls made. *)
Lemma keeps_info_same (E : environment) (st st' : state) :
  ipvs_info st' = ipvs_info st -> history st' = history st ->
  keeps_info E st st'.
Proof.
  intros Hi Hh; split; [exact Hi|].
  exists []; split; [rewrite app_nil_r; exact Hh | constructor].
Qed.

(** A call that is no service table request, or one of the right size. *)
Lemma keeps_info_call (E : environment) (c : syscall) (st : state) :
  sized_for E (gi_num_services (ipvs_info st)) c ->
  keeps_info E st (add_history c st).
Proof.
  intros Hc; split; [reflexivity|].
  exists [c]; split; [reflexivity | constructor; [exact Hc | constructor]].
Qed.

Ltac info_step E :=
  first
    [ apply (steps_bind _ (keeps_info_trans E)); [| intros ?]
    | apply (steps_ret _ (keeps_info_refl E))
    | apply (steps_exit _ (keeps_info_refl E))
    | apply (steps_fault _ (keeps_info_refl E))
    | apply (steps_get _ (keeps_info_refl E))
    | apply (steps_read_cstr _ (keeps_info_refl E))
    | apply steps_modify; intros ?; apply keeps_info_same; reflexivity
    | apply steps_call; intros ?; apply keeps_info_call; exact I
    | match goal with
      | |- steps _ (if ?b then _ else _) => destruct b
      | |- steps _ (let '(_, _) := ?x in _) => destruct x
      | |- steps _ (match ?x with _ => _ end) => destruct x
      end ].

Section Sizing.

Variable E : environment.

Lemma log_err_keeps_info (msg : string) : steps (keeps_info E) (log_err msg).
Proof. unfold log_err; info_step E. Qed.

Lemma log_err_s_keeps_info (format : string) (msg : strerror_result) :
  steps (keeps_info E) (log_err_s E format msg).
Proof.
  intros st; destruct msg; apply keeps_info_same; reflexivity.
Qed.

Lemma ipvs_strerror_keeps_info (err : Z) :
  steps (keeps_info E) (ipvs_strerror E err).
Proof. unfold ipvs_strerror; repeat info_step E. Qed.

(** The service table fetch allocates and requests a buffer for the count
    in [ipvs_info], and stores nothing in [ipvs_info]. *)
Lemma ipvs_get_services_request (st : state) :
  let num_services := gi_num_services (ipvs_info st) in
  let len := services_len E num_services in
  ipvs_info (snd (ipvs_get_services E st)) = ipvs_info st /\
  (history (snd (ipvs_get_services E st)) =
     (history st ++ [SysMalloc len])%list \/
   history (snd (ipvs_get_services E st)) =
     (history st ++
      [SysMalloc len; SysGetServices (sockfd st) num_services len])%list).
Proof.
  intros num_services len.
  unfold ipvs_get_services, bind, get, call.
  fold num_services; fold len.
  destruct (sys_malloc E (history st) len); cbn [negb].
  - cbn [modify add_history history sockfd set_ipvs_func].
    destruct (sys_get_services E _ _ _ _) as [errno|services].
    + unfold ipvs_strerror, bind, get.
      destruct (find _ strerror_table) as [[[func e] message]|];
        (split; [reflexivity|right; cbn; rewrite <- app_assoc; reflexivity]).
    + split; [reflexivity|right; cbn; rewrite <- app_assoc; reflexivity].
  - split; [reflexivity|left; reflexivity].
Qed.

Lemma ipvs_get_services_keeps_info : steps (keeps_info E) (ipvs_get_services E).
Proof.
  intros st.
  destruct (ipvs_get_services_request st) as [Hi [Hh|Hh]]; (split; [exact Hi|]).
  - eexists; split; [exact Hh|]; repeat constructor.
  - eexists; split; [exact Hh|]; repeat constructor.
Qed.

Lemma ipvs_get_dests_keeps_info (se : ip_vs_service_entry) :
  steps (keeps_info E) (ipvs_get_dests E se).
Proof.
  unfold ipvs_get_dests;
    repeat first [apply log_err_keeps_info | apply log_err_s_keeps_info
                 | apply ipvs_strerror_keeps_info | info_step E].
Qed.

Lemma get_pi_keeps_info (se : option ip_vs_service_entry)
  (pi : option cbuf) (size : Z) : steps (keeps_info E) (get_pi E se pi size).
Proof.
  unfold get_pi; destruct se as [se|]; [destruct pi as [buf|]|];
    repeat first [apply log_err_keeps_info | info_step E].
Qed.

Lemma get_ti_keeps_info (de : option ip_vs_dest_entry)
  (ti : option cbuf) (size : Z) : steps (keeps_info E) (get_ti E de ti size).
Proof.
  unfold get_ti; destruct de as [de|]; [destruct ti as [buf|]|];
    repeat first [apply log_err_keeps_info | info_step E].
Qed.

Lemma type_instance_of_keeps_info (ti : option cbuf) :
  steps (keeps_info E) (type_instance_of ti).
Proof. unfold type_instance_of; repeat info_step E. Qed.

Lemma cipvs_submit_connections_keeps_info (pi ti : option cbuf) (value : Z) :
  steps (keeps_info E) (cipvs_submit_connections E pi ti value).
Proof.
  unfold cipvs_submit_connections, plugin_dispatch_values;
    repeat first [apply type_instance_of_keeps_info | info_step E].
Qed.

Lemma cipvs_submit_if_keeps_info (pi : option cbuf) (t : string)
  (ti : option cbuf) (rx tx : Z) :
  steps (keeps_info E) (cipvs_submit_if E pi t ti rx tx).
Proof.
  unfold cipvs_submit_if, plugin_dispatch_values;
    repeat first [apply type_instance_of_keeps_info | info_step E].
Qed.

Lemma cipvs_submit_dest_keeps_info (pi : option cbuf)
  (de : ip_vs_dest_entry) : steps (keeps_info E) (cipvs_submit_dest E pi de).
Proof.
  unfold cipvs_submit_dest;
    repeat first [apply get_ti_keeps_info
                 | apply cipvs_submit_connections_keeps_info
                 | apply cipvs_submit_if_keeps_info | info_step E].
Qed.

Lemma cipvs_submit_service_keeps_info (se : ip_vs_service_entry) :
  steps (keeps_info E) (cipvs_submit_service E se).
Proof.
  unfold cipvs_submit_service;
    repeat first [apply ipvs_get_dests_keeps_info | apply get_pi_keeps_info
                 | apply cipvs_submit_connections_keeps_info
                 | apply cipvs_submit_if_keeps_info
                 | apply (steps_for_each_entry _ (keeps_info_refl E)
                            (keeps_info_trans E));
                   intros ? _; apply cipvs_submit_dest_keeps_info
                 | info_step E].
Qed.

Lemma cipvs_read_keeps_info : steps (keeps_info E) (cipvs_read E).
Proof.
  unfold cipvs_read;
    repeat first [apply ipvs_get_services_keeps_info
                 | apply (steps_for_each_entry _ (keeps_info_refl E)
                            (keeps_info_trans E));
                   intros ? _; apply cipvs_submit_service_keeps_info
                 | info_step E].
Qed.

Lemma read_cycles_keeps_info (n : nat) :
  steps (keeps_info E) (read_cycles E n).
Proof.
  induction n as [|n IH]; simpl.
  - apply (steps_ret _ (keeps_info_refl E)).
  - apply (steps_bind _ (keeps_info_trans E));
      [apply cipvs_read_keeps_info | intros _; exact IH].
Qed.

(** A successful [cipvs_init] stores the answer of the global info fetch. *)
Lemma cipvs_init_stores_info (st : state) :
  fst (cipvs_init E st) = Returned 0 ->
  exists info,
    sys_get_info E (history st ++ [SysSocket])%list
      (sockfd (snd (cipvs_init E st))) (sizeof_getinfo E) = inr info /\
    ipvs_info (snd (cipvs_init E st)) = info.
Proof.
  unfold cipvs_init, bind, call.
  destruct (sys_socket E (history st)) as [fd errno].
  cbn [modify].
  destruct (Z.eqb_spec fd (-1)) as [->|Hfd].
  - unfold ipvs_strerror, bind, get.
    destruct (find _ strerror_table) as [[[func e] message]|];
      cbn; discriminate.
  - cbn [add_history set_sockfd history sockfd].
    destruct (sys_get_info E _ fd _) as [errno'|info] eqn:Hinfo.
    + unfold ipvs_strerror, bind, get.
      destruct (find _ strerror_table) as [[[func e] message]|];
        cbn; discriminate.
    + intros _; exists info; split; [exact Hinfo | reflexivity].
Qed.

End Sizing.

(** On the kernel that reports two services and then answers with a table
    of one, the first service table fetch is made for the count of the
    global info fetch. *)
Lemma first_fetch_sized_by_info :
  sized_by_latest_count shrunk_kernel [] 0
    (history (snd (read_cycles shrunk_kernel 1 (after_init shrunk_kernel))))
  = true.
Proof. reflexivity. Qed.

(** C3, as stated, fails: the global info fetch reports two services, the
    first service table fetch answers with a count of one, and the second
    service table fetch is again made for two services. *)
Lemma second_fetch_not_sized_by_latest_count :
  fst (cipvs_init shrunk_kernel initial_state) = Returned 0 /\
  fst (read_cycles shrunk_kernel 2 (after_init shrunk_kernel)) = Returned tt /\
  history (snd (read_cycles shrunk_kernel 2 (after_init shrunk_kernel))) =
    [ SysSocket; SysGetInfo 3 12;
      SysMalloc 216; SysGetServices 3 2 216;
      SysMalloc 24;
      SysGetDests 3
        {| gd_protocol := 17; gd_addr := 3362040000; gd_port := 59668;
           gd_fwmark := 0; gd_num_dests := 0; gd_entrytable := [] |} 24;
      SysTime; SysTime; SysTime;
      SysMalloc 216; SysGetServices 3 2 216;
      SysMalloc 24;
      SysGetDests 3
        {| gd_protocol := 17; gd_addr := 3362040000; gd_port := 59668;
           gd_fwmark := 0; gd_num_dests := 0; gd_entrytable := [] |} 24;
      SysTime; SysTime; SysTime ] /\
  sys_get_services shrunk_kernel [SysSocket; SysGetInfo 3 12; SysMalloc 216]
    3 2 216 =
    inr {| gs_num_services := 1;
           gs_entrytable := [service_192_168_100_200 LittleEndian] |} /\
  sized_by_latest_count shrunk_kernel [] 0
    (history (snd (read_cycles shrunk_kernel 2 (after_init shrunk_kernel))))
  = false.
Proof. repeat split. Qed.

(** C3, amended: after a successful [cipvs_init], which stores the answer
    of the global info fetch in [ipvs_info], any number of poll cycles
    leaves [ipvs_info] as it is, and every service table request made in
    them is for the count stored there, with a buffer of the length
    computed from that count.  Each fetch allocates that length before it
    makes the request. *)
Theorem service_fetch_sized_by_the_count_of_init :
  forall (E : environment) (st0 : state) (n : nat),
    fst (cipvs_init E st0) = Returned 0 ->
    let st1 := snd (cipvs_init E st0) in
    let st2 := snd (read_cycles E n st1) in
    let count := gi_num_services (ipvs_info st1) in
    (exists info,
       sys_get_info E (history st0 ++ [SysSocket])%list (sockfd st1)
         (sizeof_getinfo E) = inr info /\
       ipvs_info st1 = info) /\
    ipvs_info st2 = ipvs_info st1 /\
    (exists new,
       history st2 = (history st1 ++ new)%list /\
       Forall (sized_for E count) new) /\
    (forall st,
       ipvs_info st = ipvs_info st1 ->
       ipvs_info (snd (ipvs_get_services E st)) = ipvs_info st1 /\
       (history (snd (ipvs_get_services E st)) =
          (history st ++ [SysMalloc (services_len E count)])%list \/
        history (snd (ipvs_get_services E st)) =
          (history st ++
           [SysMalloc (services_len E count);
            SysGetServices (sockfd st) count (services_len E count)])%list)).
Proof.
  intros E st0 n Hinit st1 st2 count.
  split; [apply cipvs_init_stores_info; exact Hinit|].
  destruct (read_cycles_keeps_info E n st1) as (Hinfo & Hnew).
  split; [exact Hinfo|]; split; [exact Hnew|].
  intros st Hst.
  destruct (ipvs_get_services_request E st) as [Hi Hh].
  unfold count; rewrite <- Hst; split; [exact Hi | exact Hh].
Qed.

Lemma service_fetch_sized_by_the_count_of_init_witness :
  ipvs_info (snd (read_cycles shrunk_kernel 2 (after_init shrunk_kernel))) =
    {| gi_version := 65537; gi_size := 4096; gi_num_services := 2 |} /\
  exists new,
    history (snd (read_cycles shrunk_kernel 2 (after_init shrunk_kernel))) =
      (history (after_init shrunk_kernel) ++ new)%list /\
    Forall (sized_for shrunk_kernel 2) new.
Proof.
  destruct (service_fetch_sized_by_the_count_of_init shrunk_kernel
              initial_state 2 eq_refl) as (_ & Hinfo & Hnew & _).
  split; [exact Hinfo | exact Hnew].
Defined.

(** ** Bytes and byte order *)

Lemma land_255 (x : Z) : Z.land x 255 = x mod 256.
Proof. change 255 with (Z.ones 8); rewrite Z.land_ones by lia; reflexivity. Qed.

Lemma land_65535 (x : Z) : Z.land x 65535 = x mod 65536.
Proof.
  change 65535 with (Z.ones 16); rewrite Z.land_ones by lia; reflexivity.
Qed.

Lemma shiftr_8 (x : Z) : Z.shiftr x 8 = x / 256.
Proof. rewrite Z.shiftr_div_pow2 by lia; reflexivity. Qed.

Lemma shiftr_16 (x : Z) : Z.shiftr x 16 = x / 256 / 256.
Proof.
  rewrite Z.shiftr_div_pow2, Z.div_div by lia; reflexivity.
Qed.

Lemma shiftr_24 (x : Z) : Z.shiftr x 24 = x / 256 / 256 / 256.
Proof.
  rewrite Z.shiftr_div_pow2, !Z.div_div by lia; reflexivity.
Qed.

Lemma low_byte (r q : Z) : 0 <= r < 256 -> (r + 256 * q) mod 256 = r.
Proof. intros H; Z.to_euclidean_division_equations; lia. Qed.

Lemma high_bytes (r q : Z) : 0 <= r < 256 -> (r + 256 * q) / 256 = q.
Proof. intros H; Z.to_euclidean_division_equations; lia. Qed.

(** The two bytes of [bswap16] do not overlap. *)
Lemma land_shiftl_8_low (a c : Z) :
  Z.land (Z.shiftl a 8) (Z.land c 255) = 0.
Proof.
  apply Z.bits_inj'; intros n Hn.
  rewrite Z.land_spec, Z.land_spec, Z.bits_0.
  destruct (Z.lt_ge_cases n 8) as [Hlow|Hhigh].
  - rewrite Z.shiftl_spec_low by exact Hlow; reflexivity.
  - change 255 with (Z.ones 8).
    rewrite Z.ones_spec_high by lia.
    rewrite !andb_false_r; reflexivity.
Qed.

Lemma bswap16_arith (x : Z) :
  bswap16 x = 256 * (x mod 256) + (x / 256) mod 256.
Proof.
  unfold bswap16.
  pose proof (Z.add_lor_land (Z.shiftl (Z.land x 255) 8)
                (Z.land (Z.shiftr x 8) 255)) as H.
  rewrite land_shiftl_8_low in H.
  rewrite Z.shiftl_mul_pow2, !land_255, shiftr_8 in H by lia.
  rewrite Z.shiftl_mul_pow2, !land_255, shiftr_8 by lia.
  change (2 ^ 8) with 256 in *; lia.
Qed.

Lemma ntohs_range (o : byte_order) (x : Z) : 0 <= ntohs o x < 65536.
Proof.
  destruct o; simpl.
  - rewrite bswap16_arith.
    pose proof (Z.mod_pos_bound x 256 ltac:(lia)).
    pose proof (Z.mod_pos_bound (x / 256) 256 ltac:(lia)).
    lia.
  - rewrite land_65535; apply Z.mod_pos_bound; lia.
Qed.

Lemma ntohs_involutive (o : byte_order) (x : Z) :
  0 <= x < 65536 -> ntohs o (ntohs o x) = x.
Proof.
  intros Hx; destruct o; simpl.
  - rewrite !bswap16_arith.
    Z.to_euclidean_division_equations; lia.
  - rewrite !land_65535, Z.mod_mod, Z.mod_small by lia; reflexivity.
Qed.

Lemma ntohs_htons (o : byte_order) (x : Z) :
  0 <= x < 65536 -> ntohs o (htons o x) = x.
Proof. apply ntohs_involutive. Qed.

Lemma ntohs_inj (o : byte_order) (x y : Z) :
  0 <= x < 65536 -> 0 <= y < 65536 -> ntohs o x = ntohs o y -> x = y.
Proof.
  intros Hx Hy H.
  rewrite <- (ntohs_involutive o x Hx), <- (ntohs_involutive o y Hy), H.
  reflexivity.
Qed.

Lemma octet_range (o : byte_order) (x i : Z) : is_octet (octet o x i).
Proof.
  unfold is_octet; destruct o; simpl; rewrite land_255;
    apply Z.mod_pos_bound; lia.
Qed.

(** The bytes of an address built from four bytes. *)
Lemma octets_of_in_addr (o : byte_order) (a b c d : Z) :
  is_octet a -> is_octet b -> is_octet c -> is_octet d ->
  octet o (in_addr_of o a b c d) 0 = a /\
  octet o (in_addr_of o a b c d) 1 = b /\
  octet o (in_addr_of o a b c d) 2 = c /\
  octet o (in_addr_of o a b c d) 3 = d.
Proof.
  unfold is_octet; intros Ha Hb Hc Hd.
  assert (Hlast : forall r, 0 <= r < 256 -> r mod 256 = r)
    by (intros r Hr; apply Z.mod_small; exact Hr).
  destruct o; unfold octet, in_addr_of;
    change (8 * 0) with 0; change (8 * 1) with 8; change (8 * 2) with 16;
    change (8 * 3) with 24; change (8 * (3 - 0)) with 24;
    change (8 * (3 - 1)) with 16; change (8 * (3 - 2)) with 8;
    change (8 * (3 - 3)) with 0;
    rewrite ?Z.shiftr_0_r, ?shiftr_8, ?shiftr_16, ?shiftr_24, !land_255;
    rewrite ?high_bytes, ?low_byte, ?Hlast by assumption;
    repeat split.
Qed.

(** An address is the address built from its four bytes. *)
Lemma in_addr_of_octets (o : byte_order) (x : Z) :
  0 <= x < 2 ^ 32 ->
  in_addr_of o (octet o x 0) (octet o x 1) (octet o x 2) (octet o x 3) = x.
Proof.
  change (2 ^ 32) with 4294967296; intros Hx.
  destruct o; unfold octet, in_addr_of;
    change (8 * 0) with 0; change (8 * 1) with 8; change (8 * 2) with 16;
    change (8 * 3) with 24; change (8 * (3 - 0)) with 24;
    change (8 * (3 - 1)) with 16; change (8 * (3 - 2)) with 8;
    change (8 * (3 - 3)) with 0;
    rewrite ?Z.shiftr_0_r, ?shiftr_8, ?shiftr_16, ?shiftr_24, !land_255;
    Z.to_euclidean_division_equations; lia.
Qed.

(** ** Decimal numbers and separators *)

Lemma append_assoc (s1 s2 s3 : string) :
  ((s1 ++ s2) ++ s3)%string = (s1 ++ (s2 ++ s3))%string.
Proof.
  induction s1 as [|c s1 IH]; simpl; [reflexivity | rewrite IH; reflexivity].
Qed.

Lemma length_append (s1 s2 : string) :
  String.length (s1 ++ s2) = (String.length s1 + String.length s2)%nat.
Proof.
  induction s1 as [|c s1 IH]; simpl; [reflexivity | rewrite IH; reflexivity].
Qed.

Lemma utoa_inj (x y : Z) : 0 <= x -> 0 <= y -> utoa x = utoa y -> x = y.
Proof.
  unfold utoa; intros Hx Hy H.
  assert (Huint : N.to_uint (Z.to_N x) = N.to_uint (Z.to_N y)).
  { pose proof (NilEmpty.usu (N.to_uint (Z.to_N x))) as H1.
    pose proof (NilEmpty.usu (N.to_uint (Z.to_N y))) as H2.
    rewrite H in H1; rewrite H1 in H2; injection H2 as H2; exact H2. }
  apply (f_equal N.of_uint) in Huint.
  rewrite !DecimalN.Unsigned.of_to in Huint.
  apply Z2N.inj; assumption.
Qed.

Lemma string_of_uint_digits (d : Decimal.uint) :
  all_digits (NilEmpty.string_of_uint d) = true.
Proof. induction d; simpl; try reflexivity; exact IHd. Qed.

Lemma utoa_digits (x : Z) : all_digits (utoa x) = true.
Proof. apply string_of_uint_digits. Qed.

(** Two texts that begin with a number followed by the same separator
    begin with the same number. *)
Lemma number_then_separator (c : ascii) (s1 s2 r1 r2 : string) :
  is_digit c = false ->
  all_digits s1 = true -> all_digits s2 = true ->
  (s1 ++ String c r1)%string = (s2 ++ String c r2)%string ->
  s1 = s2 /\ r1 = r2.
Proof.
  intros Hc; revert s2; induction s1 as [|a s1 IH]; intros [|b s2] H1 H2 H;
    simpl in *.
  - injection H as H; split; [reflexivity | exact H].
  - injection H as Hcb _; subst b.
    rewrite Hc in H2; discriminate.
  - injection H as Hac _; subst a.
    rewrite Hc in H1; discriminate.
  - injection H as Hab H; subst b.
    apply andb_true_iff in H1; destruct H1 as [_ H1].
    apply andb_true_iff in H2; destruct H2 as [_ H2].
    destruct (IH s2 H1 H2 H) as [-> ->]; split; reflexivity.
Qed.

(** Four numbers separated by dots and closed by an underscore. *)
Lemma dotted_then_underscore (a b c d a' b' c' d' : Z) (r r' : string) :
  (utoa a ++ String "." (utoa b ++ String "." (utoa c ++ String "."
     (utoa d ++ String "_" r))))%string =
  (utoa a' ++ String "." (utoa b' ++ String "." (utoa c' ++ String "."
     (utoa d' ++ String "_" r'))))%string ->
  utoa a = utoa a' /\ utoa b = utoa b' /\ utoa c = utoa c' /\
  utoa d = utoa d' /\ r = r'.
Proof.
  intros H.
  apply number_then_separator in H;
    [destruct H as [Ha H] | reflexivity | apply utoa_digits ..].
  apply number_then_separator in H;
    [destruct H as [Hb H] | reflexivity | apply utoa_digits ..].
  apply number_then_separator in H;
    [destruct H as [Hc H] | reflexivity | apply utoa_digits ..].
  apply number_then_separator in H;
    [destruct H as [Hd H] | reflexivity | apply utoa_digits ..].
  repeat split; assumption.
Qed.

Lemma pi_text_shape (o : byte_order) (se : ip_vs_service_entry) :
  pi_text o se =
  (utoa (octet o (se_addr se) 0) ++ String "."
     (utoa (octet o (se_addr se) 1) ++ String "."
        (utoa (octet o (se_addr se) 2) ++ String "."
           (utoa (octet o (se_addr se) 3) ++ String "_"
              ((if (se_protocol se =? IPPROTO_TCP)%Z then "TCP" else "UDP") ++
               utoa (ntohs o (se_port se)))))))%string.
Proof.
  unfold pi_text, inet_ntoa.
  repeat (rewrite append_assoc; cbn [append]).
  reflexivity.
Qed.

Lemma ti_text_shape (o : byte_order) (de : ip_vs_dest_entry) :
  ti_text o de =
  (utoa (octet o (de_addr de) 0) ++ String "."
     (utoa (octet o (de_addr de) 1) ++ String "."
        (utoa (octet o (de_addr de) 2) ++ String "."
           (utoa (octet o (de_addr de) 3) ++ String "_"
              (utoa (ntohs o (de_port de)))))))%string.
Proof.
  unfold ti_text, inet_ntoa.
  repeat (rewrite append_assoc; cbn [append]).
  reflexivity.
Qed.

(** Equal bytes, equal addresses. *)
Lemma addr_of_equal_octets (o : byte_order) (x y : Z) :
  0 <= x < 2 ^ 32 -> 0 <= y < 2 ^ 32 ->
  utoa (octet o x 0) = utoa (octet o y 0) ->
  utoa (octet o x 1) = utoa (octet o y 1) ->
  utoa (octet o x 2) = utoa (octet o y 2) ->
  utoa (octet o x 3) = utoa (octet o y 3) ->
  x = y.
Proof.
  intros Hx Hy H0 H1 H2 H3.
  rewrite <- (in_addr_of_octets o x Hx), <- (in_addr_of_octets o y Hy).
  apply utoa_inj in H0; [|apply octet_range ..].
  apply utoa_inj in H1; [|apply octet_range ..].
  apply utoa_inj in H2; [|apply octet_range ..].
  apply utoa_inj in H3; [|apply octet_range ..].
  rewrite H0, H1, H2, H3; reflexivity.
Qed.

(** The text of a service identifier determines protocol, address and
    port. *)
Lemma pi_text_inj (o : byte_order) (se1 se2 : ip_vs_service_entry) :
  valid_service se1 -> valid_service se2 ->
  pi_text o se1 = pi_text o se2 -> service_key se1 = service_key se2.
Proof.
  intros (Hp1 & Ha1 & Hq1) (Hp2 & Ha2 & Hq2) H.
  rewrite !pi_text_shape in H.
  apply dotted_then_underscore in H.
  destruct H as (H0 & H1 & H2 & H3 & Hrest).
  assert (Haddr : se_addr se1 = se_addr se2)
    by (apply (addr_of_equal_octets o); assumption).
  assert (Hproto : se_protocol se1 = se_protocol se2 /\
                   utoa (ntohs o (se_port se1)) = utoa (ntohs o (se_port se2))).
  { unfold IPPROTO_TCP, IPPROTO_UDP in *.
    destruct Hp1 as [Hp1|Hp1], Hp2 as [Hp2|Hp2]; rewrite Hp1, Hp2 in *;
      cbn [Z.eqb Pos.eqb append] in Hrest;
      try discriminate; injection Hrest as Hrest; split; auto. }
  destruct Hproto as [Hproto Hport].
  apply utoa_inj in Hport; try apply ntohs_range.
  apply ntohs_inj in Hport; try assumption.
  unfold service_key; rewrite Haddr, Hproto, Hport; reflexivity.
Qed.

(** The text of a destination identifier determines address and port. *)
Lemma ti_text_inj (o : byte_order) (de1 de2 : ip_vs_dest_entry) :
  valid_dest de1 -> valid_dest de2 ->
  ti_text o de1 = ti_text o de2 -> dest_key de1 = dest_key de2.
Proof.
  intros (Ha1 & Hq1) (Ha2 & Hq2) H.
  rewrite !ti_text_shape in H.
  apply dotted_then_underscore in H.
  destruct H as (H0 & H1 & H2 & H3 & Hport).
  assert (Haddr : de_addr de1 = de_addr de2)
    by (apply (addr_of_equal_octets o); assumption).
  apply utoa_inj in Hport; try apply ntohs_range.
  apply ntohs_inj in Hport; try assumption.
  unfold dest_key; rewrite Haddr, Hport; reflexivity.
Qed.

(** ** The identifiers *)

Lemma get_pi_returns_text (E : environment) (se : ip_vs_service_entry)
  (buf : cbuf) (size : Z) (st st' : state) (id : string) :
  get_pi E (Some se) (Some buf) size st = (Returned (0, Some (Cstr id)), st') ->
  id = pi_text (host_order E) se.
Proof.
  intros H.
  destruct (get_pi_cases E se buf size st) as [[Hrun _]|(Hrc & _)].
  - rewrite Hrun in H; injection H as H _; symmetry; exact H.
  - exfalso; apply (Hrc (Some (Cstr id))); rewrite H; reflexivity.
Qed.

Lemma get_ti_returns_text (E : environment) (de : ip_vs_dest_entry)
  (buf : cbuf) (size : Z) (st st' : state) (id : string) :
  get_ti E (Some de) (Some buf) size st = (Returned (0, Some (Cstr id)), st') ->
  id = ti_text (host_order E) de.
Proof.
  intros H.
  destruct (get_ti_cases E de buf size st) as [[Hrun _]|(Hrc & _)].
  - rewrite Hrun in H; injection H as H _; symmetry; exact H.
  - exfalso; apply (Hrc (Some (Cstr id))); rewrite H; reflexivity.
Qed.

(** C2: two services with a protocol of TCP or UDP, a 32-bit address and
    a 16-bit port that differ in protocol, address or port get different
    identifiers from [get_pi]; two destinations with a 32-bit address and
    a 16-bit port that differ in address or port get different identifiers
    from [get_ti]. *)
Theorem identifiers_are_injective :
  forall E : environment,
    (forall (se1 se2 : ip_vs_service_entry) (buf1 buf2 : cbuf)
       (size1 size2 : Z) (st1 st2 st1' st2' : state) (id1 id2 : string),
        valid_service se1 -> valid_service se2 ->
        service_key se1 <> service_key se2 ->
        get_pi E (Some se1) (Some buf1) size1 st1 =
          (Returned (0, Some (Cstr id1)), st1') ->
        get_pi E (Some se2) (Some buf2) size2 st2 =
          (Returned (0, Some (Cstr id2)), st2') ->
        id1 <> id2)
    /\
    (forall (de1 de2 : ip_vs_dest_entry) (buf1 buf2 : cbuf)
       (size1 size2 : Z) (st1 st2 st1' st2' : state) (id1 id2 : string),
        valid_dest de1 -> valid_dest de2 ->
        dest_key de1 <> dest_key de2 ->
        get_ti E (Some de1) (Some buf1) size1 st1 =
          (Returned (0, Some (Cstr id1)), st1') ->
        get_ti E (Some de2) (Some buf2) size2 st2 =
          (Returned (0, Some (Cstr id2)), st2') ->
        id1 <> id2).
Proof.
  intros E; split.
  - intros se1 se2 buf1 buf2 size1 size2 st1 st2 st1' st2' id1 id2
      Hv1 Hv2 Hkey H1 H2 Hid.
    apply get_pi_returns_text in H1; apply get_pi_returns_text in H2.
    apply Hkey, (pi_text_inj (host_order E)); congruence.
  - intros de1 de2 buf1 buf2 size1 size2 st1 st2 st1' st2' id1 id2
      Hv1 Hv2 Hkey H1 H2 Hid.
    apply get_ti_returns_text in H1; apply get_ti_returns_text in H2.
    apply Hkey, (ti_text_inj (host_order E)); congruence.
Qed.

Lemma identifiers_are_injective_witness :
  "10.0.0.1_TCP80" <> "192.168.100.200_UDP5353" /\
  "10.0.0.2_8080" <> "192.168.100.201_8080".
Proof.
  destruct (identifiers_are_injective small_capacity_kernel) as [Hs Hd].
  split.
  - apply (Hs (service_10_0_0_1 LittleEndian)
              (service_192_168_100_200 LittleEndian) Uninit Uninit 64 64
              initial_state initial_state initial_state initial_state).
    + vm_compute; repeat split; auto; intros H; discriminate H.
    + vm_compute; repeat split; auto; intros H; discriminate H.
    + vm_compute; discriminate.
    + reflexivity.
    + reflexivity.
  - apply (Hd (dest_10_0_0_2 LittleEndian)
              (dest_192_168_100_201 LittleEndian) Uninit Uninit 64 64
              initial_state initial_state initial_state initial_state).
    + vm_compute; repeat split; auto; intros H; discriminate H.
    + vm_compute; repeat split; auto; intros H; discriminate H.
    + vm_compute; discriminate.
    + reflexivity.
    + reflexivity.
Defined.

Lemma pi_text_service_id (o : byte_order) (p : protocol)
  (a b c d port : Z) (se : ip_vs_service_entry) :
  is_octet a -> is_octet b -> is_octet c -> is_octet d ->
  0 <= port < 65536 ->
  se_protocol se = protocol_number p ->
  se_addr se = in_addr_of o a b c d ->
  se_port se = htons o port ->
  pi_text o se = service_id p a b c d port.
Proof.
  intros Ha Hb Hc Hd Hport Hp Haddr Hq.
  destruct (octets_of_in_addr o a b c d Ha Hb Hc Hd) as (H0 & H1 & H2 & H3).
  unfold pi_text, inet_ntoa, service_id, dotted_decimal.
  rewrite Hp, Haddr, Hq, H0, H1, H2, H3, ntohs_htons by exact Hport.
  destruct p; reflexivity.
Qed.

Lemma ti_text_destination_id (o : byte_order) (a b c d port : Z)
  (de : ip_vs_dest_entry) :
  is_octet a -> is_octet b -> is_octet c -> is_octet d ->
  0 <= port < 65536 ->
  de_addr de = in_addr_of o a b c d ->
  de_port de = htons o port ->
  ti_text o de = destination_id a b c d port.
Proof.
  intros Ha Hb Hc Hd Hport Haddr Hq.
  destruct (octets_of_in_addr o a b c d Ha Hb Hc Hd) as (H0 & H1 & H2 & H3).
  unfold ti_text, inet_ntoa, destination_id, dotted_decimal.
  rewrite Haddr, Hq, H0, H1, H2, H3, ntohs_htons by exact Hport.
  reflexivity.
Qed.

(** C4: for a service entry with protocol TCP or UDP, the address
    [a.b.c.d] as a 32-bit value in network byte order and the port [port]
    as a 16-bit value in network byte order, [get_pi] with a buffer that
    holds the text returns 0 and stores the dotted decimal address, an
    underscore, the protocol name in upper case and the decimal port; for
    a destination entry [get_ti] stores the dotted decimal address, an
    underscore and the decimal port. *)
Theorem builders_format_the_identifiers :
  forall (E : environment) (p : protocol) (a b c d port : Z)
    (se : ip_vs_service_entry) (de : ip_vs_dest_entry) (buf : cbuf)
    (size : Z) (st : state),
    is_octet a -> is_octet b -> is_octet c -> is_octet d ->
    0 <= port < 65536 ->
    se_protocol se = protocol_number p ->
    se_addr se = in_addr_of (host_order E) a b c d ->
    se_port se = htons (host_order E) port ->
    de_addr de = in_addr_of (host_order E) a b c d ->
    de_port de = htons (host_order E) port ->
    Z.of_nat (String.length (service_id p a b c d port)) < size ->
    get_pi E (Some se) (Some buf) size st =
      (Returned (0, Some (Cstr (service_id p a b c d port))), st) /\
    get_ti E (Some de) (Some buf) size st =
      (Returned (0, Some (Cstr (destination_id a b c d port))), st) /\
    service_id p a b c d port =
      (utoa a ++ "." ++ utoa b ++ "." ++ utoa c ++ "." ++ utoa d ++ "_" ++
       protocol_name p ++ utoa port)%string /\
    destination_id a b c d port =
      (utoa a ++ "." ++ utoa b ++ "." ++ utoa c ++ "." ++ utoa d ++ "_" ++
       utoa port)%string.
Proof.
  intros E p a b c d port se de buf size st Ha Hb Hc Hd Hport Hp Haddr Hq
    Hdaddr Hdq Hsize.
  pose proof (pi_text_service_id (host_order E) p a b c d port se
                Ha Hb Hc Hd Hport Hp Haddr Hq) as Hpi.
  pose proof (ti_text_destination_id (host_order E) a b c d port de
                Ha Hb Hc Hd Hport Hdaddr Hdq) as Hti.
  assert (Hshape_s : service_id p a b c d port =
            (utoa a ++ "." ++ utoa b ++ "." ++ utoa c ++ "." ++ utoa d ++
             "_" ++ protocol_name p ++ utoa port)%string).
  { unfold service_id, dotted_decimal.
    repeat (rewrite append_assoc; cbn [append]); reflexivity. }
  assert (Hshape_d : destination_id a b c d port =
            (utoa a ++ "." ++ utoa b ++ "." ++ utoa c ++ "." ++ utoa d ++
             "_" ++ utoa port)%string).
  { unfold destination_id, dotted_decimal.
    repeat (rewrite append_assoc; cbn [append]); reflexivity. }
  assert (Hlen : (String.length (destination_id a b c d port)
                  <= String.length (service_id p a b c d port))%nat).
  { rewrite Hshape_s, Hshape_d.
    repeat (rewrite ?length_append; cbn [String.length]).
    destruct p; cbn [protocol_name String.length]; lia. }
  split; [|split; [|split; assumption]].
  - rewrite <- Hpi; apply get_pi_fits; rewrite Hpi; exact Hsize.
  - rewrite <- Hti; apply get_ti_fits; rewrite Hti; lia.
Qed.

Lemma builders_format_the_identifiers_witness :
  get_pi small_capacity_kernel (Some (service_10_0_0_1 LittleEndian))
    (Some Uninit) 64 initial_state =
    (Returned (0, Some (Cstr "10.0.0.1_TCP80")), initial_state) /\
  get_ti small_capacity_kernel
    (Some {| de_addr := in_addr_of LittleEndian 10 0 0 1;
             de_port := htons LittleEndian 80;
             de_stats := stats_5_10_20_100_200 |})
    (Some Uninit) 64 initial_state =
    (Returned (0, Some (Cstr "10.0.0.1_80")), initial_state).
Proof.
  destruct (builders_format_the_identifiers small_capacity_kernel TCP
              10 0 0 1 80 (service_10_0_0_1 LittleEndian)
              {| de_addr := in_addr_of LittleEndian 10 0 0 1;
                 de_port := htons LittleEndian 80;
                 de_stats := stats_5_10_20_100_200 |}
              Uninit 64 initial_state)
    as (Hpi & Hti & _);
    try (unfold is_octet; lia); try reflexivity.
  split; [exact Hpi | exact Hti].
Defined.

(** * Further properties of the plugin *)

(** ** Error messages *)

Lemma ipvs_strerror_returns (E : environment) (err : Z) (st : state) :
  exists msg, ipvs_strerror E err st = (Returned msg, st).
Proof.
  unfold ipvs_strerror, bind, get.
  destruct (find _ strerror_table) as [[[func e] message]|];
    eexists; reflexivity.
Qed.

Lemma ipvs_strerror_by_func (E : environment) (err : Z) (st1 st2 : state) :
  ipvs_func st1 = ipvs_func st2 ->
  fst (ipvs_strerror E err st1) = fst (ipvs_strerror E err st2).
Proof.
  intros H; unfold ipvs_strerror, bind, get; rewrite H.
  destruct (find _ strerror_table) as [[[func e] message]|]; reflexivity.
Qed.

Lemma read_message_returns (E : environment) (msg : strerror_result)
  (st : state) :
  exists text, read_message E msg st = (Returned text, st).
Proof. destruct msg; eexists; reflexivity. Qed.

(** The errors [ipvs_strerror] has a message for. *)
Lemma ipvs_strerror_table (E : environment) (err : Z) (st : state) :
  (err = EPERM ->
   fst (ipvs_strerror E err st) =
     Returned (TableMessage "Permission denied (you must be root)")) /\
  (err = EINVAL ->
   fst (ipvs_strerror E err st) =
     Returned (TableMessage "Module is wrong version")) /\
  (err = ENOPROTOOPT ->
   fst (ipvs_strerror E err st) =
     Returned (TableMessage "Protocol not available")) /\
  (err = ENOMEM ->
   fst (ipvs_strerror E err st) =
     Returned (TableMessage "Memory allocation problem")) /\
  (err = ESRCH -> ipvs_func st <> FuncNull ->
   fst (ipvs_strerror E err st) = Returned (TableMessage "No such service")).
Proof.
  unfold ipvs_strerror, bind, get.
  split; [intros ->; reflexivity|].
  split; [intros ->; reflexivity|].
  split; [intros ->; reflexivity|].
  split; [intros ->; reflexivity|].
  intros -> Hfunc; destruct (ipvs_func st); try reflexivity.
  exfalso; apply Hfunc; reflexivity.
Qed.

(** X1: [ipvs_strerror] leaves the state alone.  For the four general
    errors it returns their message of the table whatever [ipvs_func] is,
    and for [ESRCH] "No such service" once one of the two fetch functions
    has run.  For [ESRCH] before that and for every other error it returns
    the pointer [sstrerror] returned, which points to its own local
    [errbuf]: what a caller reads through it is what the environment has
    at that address, not a text the program determines. *)
Theorem ipvs_strerror_messages :
  forall (E : environment) (err : Z) (st : state),
    snd (ipvs_strerror E err st) = st /\
    (err = EPERM ->
     fst (ipvs_strerror E err st) =
       Returned (TableMessage "Permission denied (you must be root)")) /\
    (err = EINVAL ->
     fst (ipvs_strerror E err st) =
       Returned (TableMessage "Module is wrong version")) /\
    (err = ENOPROTOOPT ->
     fst (ipvs_strerror E err st) =
       Returned (TableMessage "Protocol not available")) /\
    (err = ENOMEM ->
     fst (ipvs_strerror E err st) =
       Returned (TableMessage "Memory allocation problem")) /\
    (err = ESRCH -> ipvs_func st <> FuncNull ->
     fst (ipvs_strerror E err st) =
       Returned (TableMessage "No such service")) /\
    (err = ESRCH -> ipvs_func st = FuncNull ->
     fst (ipvs_strerror E err st) = Returned (DeadErrbuf (sstrerror E err))) /\
    (err <> EPERM -> err <> EINVAL -> err <> ENOPROTOOPT ->
     err <> ENOMEM -> err <> ESRCH ->
     fst (ipvs_strerror E err st) = Returned (DeadErrbuf (sstrerror E err))) /\
    (forall (written : string) (st' : state),
        read_message E (DeadErrbuf written) st' =
          (Returned (dead_errbuf E (history st') written), st')).
Proof.
  intros E err st.
  unfold ipvs_strerror, bind, get.
  split; [destruct (find _ strerror_table) as [[[func e] message]|];
          reflexivity|].
  split; [intros ->; reflexivity|].
  split; [intros ->; reflexivity|].
  split; [intros ->; reflexivity|].
  split; [intros ->; reflexivity|].
  split; [|split; [|split]].
  - intros -> Hfunc; destruct (ipvs_func st); try reflexivity.
    exfalso; apply Hfunc; reflexivity.
  - intros -> Hfunc; rewrite Hfunc; reflexivity.
  - intros H1 H2 H3 H4 H5.
    unfold strerror_table, EPERM, EINVAL, ENOPROTOOPT, ENOMEM, ESRCH in *.
    cbn [find].
    apply not_eq_sym, Z.eqb_neq in H1, H2, H3, H4, H5.
    rewrite H1, H2, H3, H4, H5, !andb_false_r; reflexivity.
  - intros written st'; reflexivity.
Qed.

Lemma ipvs_strerror_messages_witness :
  fst (ipvs_strerror round_trip_kernel ESRCH
         (set_ipvs_func FuncGetDests initial_state)) =
    Returned (TableMessage "No such service") /\
  fst (ipvs_strerror round_trip_kernel ESRCH initial_state) =
    Returned (DeadErrbuf "Unknown error") /\
  fst (ipvs_strerror round_trip_kernel 5 initial_state) =
    Returned (DeadErrbuf "Unknown error").
Proof.
  split; [|split].
  - destruct (ipvs_strerror_messages round_trip_kernel ESRCH
                (set_ipvs_func FuncGetDests initial_state))
      as (_ & _ & _ & _ & _ & H & _).
    apply H; [reflexivity | discriminate].
  - destruct (ipvs_strerror_messages round_trip_kernel ESRCH initial_state)
      as (_ & _ & _ & _ & _ & _ & H & _).
    apply H; reflexivity.
  - destruct (ipvs_strerror_messages round_trip_kernel 5 initial_state)
      as (_ & _ & _ & _ & _ & _ & _ & H & _).
    apply H; discriminate.
Defined.

(** The log line of a refused request: the state after the request, the
    message and the text read through it. *)
Lemma refused_request_line (E : environment) (errno : Z) (format : string)
  (st1 : state) :
  ipvs_func st1 <> FuncNull ->
  exists msg text,
    ipvs_strerror E errno st1 = (Returned msg, st1) /\
    log_err_s E format msg st1 =
      (Returned tt, add_errlog ("ipvs: " ++ format ++ text) st1) /\
    (forall message, msg = TableMessage message -> text = message) /\
    (errno = EPERM -> text = "Permission denied (you must be root)") /\
    (errno = EINVAL -> text = "Module is wrong version") /\
    (errno = ENOPROTOOPT -> text = "Protocol not available") /\
    (errno = ENOMEM -> text = "Memory allocation problem") /\
    (errno = ESRCH -> text = "No such service").
Proof.
  intros Hfunc.
  destruct (ipvs_strerror_returns E errno st1) as [msg Hmsg].
  destruct (ipvs_strerror_table E errno st1) as (H1 & H2 & H3 & H4 & H5).
  rewrite Hmsg in H1, H2, H3, H4, H5; cbn [fst] in H1, H2, H3, H4, H5.
  destruct (read_message_returns E msg st1) as [text Htext].
  exists msg, text; split; [exact Hmsg|]; split.
  - unfold log_err_s, bind; rewrite Htext; reflexivity.
  - assert (Hlit : forall message, msg = TableMessage message ->
                                   text = message).
    { intros message ->; cbn in Htext; injection Htext as Htext.
      symmetry; exact Htext. }
    split; [exact Hlit|].
    split; [intros H; apply Hlit; specialize (H1 H); congruence|].
    split; [intros H; apply Hlit; specialize (H2 H); congruence|].
    split; [intros H; apply Hlit; specialize (H3 H); congruence|].
    split; [intros H; apply Hlit; specialize (H4 H); congruence|].
    intros H; apply Hlit; specialize (H5 H Hfunc); congruence.
Qed.

(** X2: when the kernel refuses a destination request, [ipvs_get_dests]
    returns NULL with [ipvs_func] set to itself, dispatches nothing and
    logs one line: its prefix and then the text read through the pointer
    [ipvs_strerror] returned.  For the errors of the table that text is
    their message, "No such service" for [ESRCH]; for any other error it
    is not determined by the program.  [ipvs_get_services] does the same
    for a refused service table request. *)
Theorem refused_fetch_is_logged :
  forall (E : environment) (errno : Z),
    (forall (se : ip_vs_service_entry) (st : state),
        let len := dests_len E (se_num_dests se) in
        sys_malloc E (history st) len = true ->
        sys_get_dests E (history st ++ [SysMalloc len])%list (sockfd st)
          (dests_request se) len = inl errno ->
        exists st' msg text,
          ipvs_get_dests E se st = (Returned None, st') /\
          ipvs_func st' = FuncGetDests /\
          dispatched st' = dispatched st /\
          fst (ipvs_strerror E errno st') = Returned msg /\
          errlog st' =
            (errlog st ++
             [("ipvs: ipvs_get_dests: getsockopt() failed: " ++ text)%string])%list /\
          (forall message, msg = TableMessage message -> text = message) /\
          (errno = EPERM -> text = "Permission denied (you must be root)") /\
          (errno = EINVAL -> text = "Module is wrong version") /\
          (errno = ENOPROTOOPT -> text = "Protocol not available") /\
          (errno = ENOMEM -> text = "Memory allocation problem") /\
          (errno = ESRCH -> text = "No such service"))
    /\
    (forall st : state,
        let num_services := gi_num_services (ipvs_info st) in
        let len := services_len E num_services in
        sys_malloc E (history st) len = true ->
        sys_get_services E (history st ++ [SysMalloc len])%list (sockfd st)
          num_services len = inl errno ->
        exists st' msg text,
          ipvs_get_services E st = (Returned None, st') /\
          ipvs_func st' = FuncGetServices /\
          dispatched st' = dispatched st /\
          fst (ipvs_strerror E errno st') = Returned msg /\
          errlog st' =
            (errlog st ++
             [("ipvs: ipvs_get_services: getsockopt failed: " ++ text)%string])%list /\
          (forall message, msg = TableMessage message -> text = message) /\
          (errno = EPERM -> text = "Permission denied (you must be root)") /\
          (errno = EINVAL -> text = "Module is wrong version") /\
          (errno = ENOPROTOOPT -> text = "Protocol not available") /\
          (errno = ENOMEM -> text = "Memory allocation problem") /\
          (errno = ESRCH -> text = "No such service")).
Proof.
  intros E errno; split.
  - intros se st len Hmalloc Hfetch.
    set (st1 := add_history (SysGetDests (sockfd st) (dests_request se) len)
                  (set_ipvs_func FuncGetDests
                     (add_history (SysMalloc len) st))).
    destruct (refused_request_line E errno
                "ipvs_get_dests: getsockopt() failed: " st1
                ltac:(discriminate))
      as (msg & text & Hmsg & Hlog & Hrest).
    exists (add_errlog
              ("ipvs: ipvs_get_dests: getsockopt() failed: " ++ text) st1),
      msg, text.
    split; [|split; [reflexivity|split; [reflexivity|split;
                                         [|split; [reflexivity|exact Hrest]]]]].
    + unfold ipvs_get_dests; unfold bind at 1; unfold call at 1.
      fold len; rewrite Hmalloc; cbn [negb].
      unfold bind at 1 2 3; cbn [modify get call].
      cbn [add_history history sockfd set_ipvs_func].
      change {| gd_protocol := se_protocol se; gd_addr := se_addr se;
                gd_port := se_port se; gd_fwmark := se_fwmark se;
                gd_num_dests := se_num_dests se; gd_entrytable := [] |}
        with (dests_request se).
      rewrite Hfetch.
      unfold bind at 1; fold st1; rewrite Hmsg.
      unfold bind at 1; rewrite Hlog; reflexivity.
    + rewrite (ipvs_strerror_by_func E errno _ st1) by reflexivity.
      rewrite Hmsg; reflexivity.
  - intros st num_services len Hmalloc Hfetch.
    set (st1 := add_history (SysGetServices (sockfd st) num_services len)
                  (set_ipvs_func FuncGetServices
                     (add_history (SysMalloc len) st))).
    destruct (refused_request_line E errno
                "ipvs_get_services: getsockopt failed: " st1
                ltac:(discriminate))
      as (msg & text & Hmsg & Hlog & Hrest).
    exists (add_errlog
              ("ipvs: ipvs_get_services: getsockopt failed: " ++ text) st1),
      msg, text.
    split; [|split; [reflexivity|split; [reflexivity|split;
                                         [|split; [reflexivity|exact Hrest]]]]].
    + unfold ipvs_get_services; unfold bind at 1 2; unfold get, call at 1.
      fold num_services; fold len; rewrite Hmalloc; cbn [negb].
      unfold bind at 1 2; cbn [modify call].
      cbn [add_history history sockfd set_ipvs_func].
      rewrite Hfetch.
      unfold bind at 1; fold st1; rewrite Hmsg.
      unfold bind at 1; rewrite Hlog; reflexivity.
    + rewrite (ipvs_strerror_by_func E errno _ st1) by reflexivity.
      rewrite Hmsg; reflexivity.
Qed.

Lemma refused_fetch_is_logged_witness :
  errlog (snd (ipvs_get_dests stale_service_kernel
                 (service_10_0_0_1 LittleEndian)
                 (after_init stale_service_kernel))) =
    ["ipvs: ipvs_get_dests: getsockopt() failed: No such service"].
Proof.
  destruct (refused_fetch_is_logged stale_service_kernel ESRCH) as [Hd _].
  destruct (Hd (service_10_0_0_1 LittleEndian)
              (after_init stale_service_kernel) eq_refl eq_refl)
    as (st' & msg & text & Hrun & _ & _ & _ & Hlog & _ & _ & _ & _ & _ & Hmsg).
  rewrite Hrun; simpl; rewrite Hlog, (Hmsg eq_refl); reflexivity.
Defined.

(** ** Initialization *)

(** X3: [cipvs_init] stores what [socket] returned in [sockfd], dispatches
    nothing and returns 0 or -1.  When [socket] returned -1 it returns -1
    after one log line and asks the kernel nothing.  When the global info
    fetch is refused it returns -1 after one log line, with [ipvs_info]
    as it was and the socket left open.  Otherwise it returns 0 with the
    kernel's answer in [ipvs_info] and nothing logged. *)
Theorem cipvs_init_outcomes :
  forall (E : environment) (st : state),
    let fd := fst (sys_socket E (history st)) in
    let len := sizeof_getinfo E in
    let answer := sys_get_info E (history st ++ [SysSocket])%list fd len in
    let st' := snd (cipvs_init E st) in
    sockfd st' = fd /\
    dispatched st' = dispatched st /\
    ipvs_func st' = ipvs_func st /\
    (fd = -1 ->
     fst (cipvs_init E st) = Returned (-1) /\
     ipvs_info st' = ipvs_info st /\
     history st' = (history st ++ [SysSocket])%list /\
     exists msg,
       errlog st' =
         (errlog st ++
          [("ipvs: cipvs_init: socket() failed: " ++ msg)%string])%list) /\
    (fd <> -1 ->
     forall errno, answer = inl errno ->
       fst (cipvs_init E st) = Returned (-1) /\
       ipvs_info st' = ipvs_info st /\
       history st' = (history st ++ [SysSocket; SysGetInfo fd len])%list /\
       exists msg,
         errlog st' =
           (errlog st ++
            [("ipvs: cipvs_init: getsockopt() failed: " ++ msg)%string])%list) /\
    (fd <> -1 ->
     forall info, answer = inr info ->
       fst (cipvs_init E st) = Returned 0 /\
       ipvs_info st' = info /\
       history st' = (history st ++ [SysSocket; SysGetInfo fd len])%list /\
       errlog st' = errlog st).
Proof.
  intros E st fd len answer st'.
  subst st' answer fd len.
  unfold cipvs_init, bind, call.
  destruct (sys_socket E (history st)) as [fd errno0].
  cbn [fst modify].
  destruct (Z.eqb_spec fd (-1)) as [Hfd|Hfd].
  - unfold ipvs_strerror, bind, get.
    destruct (find _ strerror_table) as [[[func e] message]|];
      cbn; (repeat split; try congruence);
      try (eexists; reflexivity); intros; congruence.
  - cbn [add_history set_sockfd history sockfd].
    destruct (sys_get_info E _ fd _) as [errno|info].
    + unfold ipvs_strerror, bind, get.
      destruct (find _ strerror_table) as [[[func e] message]|];
        cbn; (repeat split; try congruence);
        try (rewrite <- app_assoc; reflexivity);
        try (eexists; reflexivity); intros; congruence.
    + cbn; repeat split; try congruence;
        try (rewrite <- app_assoc; reflexivity); intros; congruence.
Qed.

Lemma cipvs_init_outcomes_witness :
  fst (cipvs_init round_trip_kernel initial_state) = Returned 0 /\
  ipvs_info (snd (cipvs_init round_trip_kernel initial_state)) =
    {| gi_version := 65537; gi_size := 4096; gi_num_services := 1 |}.
Proof.
  destruct (cipvs_init_outcomes round_trip_kernel initial_state)
    as (_ & _ & _ & _ & _ & Hok).
  destruct (Hok ltac:(discriminate)
              {| gi_version := 65537; gi_size := 4096; gi_num_services := 1 |}
              eq_refl) as (Hret & Hinfo & _).
  split; [exact Hret | exact Hinfo].
Defined.

(** ** Edge cases of a poll cycle *)

(** X4: when the fetched service table announces no service, [cipvs_read]
    returns 0 right after the fetch: no destination is requested, nothing
    is dispatched and nothing is logged, whatever the table holds. *)
Theorem empty_table_reads_nothing :
  forall (E : environment) (st st1 : state) (services : ip_vs_get_services),
    ipvs_get_services E st = (Returned (Some services), st1) ->
    gs_num_services services <= 0 ->
    cipvs_read E st = (Returned 0, st1).
Proof.
  intros E st st1 services Hfetch Hcount.
  unfold cipvs_read; unfold bind at 1; rewrite Hfetch.
  replace (Z.to_nat (gs_num_services services)) with 0%nat by lia.
  reflexivity.
Qed.

Lemma empty_table_reads_nothing_witness :
  fst (first_cycle empty_kernel) = Returned 0 /\
  dispatched (snd (first_cycle empty_kernel)) = [] /\
  history (snd (first_cycle empty_kernel)) =
    [SysSocket; SysGetInfo 3 12; SysMalloc 8; SysGetServices 3 0 8].
Proof.
  unfold first_cycle.
  rewrite (empty_table_reads_nothing empty_kernel (after_init empty_kernel)
             (snd (ipvs_get_services empty_kernel (after_init empty_kernel)))
             {| gs_num_services := 0; gs_entrytable := [] |}
             eq_refl ltac:(simpl; lia)).
  repeat split.
Defined.

(** X5: for every environment, when the destination fetch of a service
    whose identifier fits returns NULL, [cipvs_submit_service] dispatches
    the three samples of the service and then faults. *)
Theorem null_dests_fault_after_service_samples :
  forall (E : environment) (se : ip_vs_service_entry) (st : state),
    fst (ipvs_get_dests E se st) = Returned None ->
    Z.of_nat (String.length (pi_text (host_order E) se))
      < DATA_MAX_NAME_LEN E ->
    fst (cipvs_submit_service E se st) = Fault /\
    exists t1 t2 t3,
      dispatched (snd (cipvs_submit_service E se st)) =
        (dispatched st ++
         entity_samples E (pi_text (host_order E) se) "total" (se_stats se)
           t1 t2 t3)%list.
Proof.
  intros E se st Hnull Hfit.
  destruct (ipvs_get_dests E se st) as [o st1] eqn:Hfetch.
  simpl in Hnull; subst o.
  destruct (cipvs_submit_service_fits E se None st st1 Hfetch Hfit)
    as (t1 & t2 & t3 & st2 & Hd & _ & Hrun).
  rewrite Hrun; split; [reflexivity|].
  exists t1, t2, t3; unfold dispatches in Hd; simpl.
  pose proof (ipvs_get_dests_quiet E se st) as Hq.
  rewrite Hfetch in Hq; unfold quiet in Hq; simpl in Hq.
  rewrite Hd, Hq; reflexivity.
Qed.

Lemma null_dests_fault_after_service_samples_witness :
  fst (cipvs_submit_service stale_service_kernel
         (service_10_0_0_1 LittleEndian)
         (after_init stale_service_kernel)) = Fault.
Proof.
  apply (null_dests_fault_after_service_samples stale_service_kernel
           (service_10_0_0_1 LittleEndian)
           (after_init stale_service_kernel));
    [reflexivity | vm_compute; reflexivity].
Defined.

(** ** The length of the identifiers *)

Lemma utoa_length_checked (count digits : nat) (start x : Z) :
  utoa_length_at_most count start digits = true ->
  start <= x < start + Z.of_nat count ->
  (String.length (utoa x) <= digits)%nat.
Proof.
  revert start; induction count as [|count IH]; intros start Hall Hx.
  - simpl in Hx; lia.
  - cbn [utoa_length_at_most] in Hall.
    apply andb_true_iff in Hall; destruct Hall as [Hhere Hrest].
    destruct (Z.eq_dec x start) as [->|Hne].
    + apply Nat.leb_le; exact Hhere.
    + apply (IH (start + 1) Hrest); lia.
Qed.

Lemma utoa_octet_length (x : Z) :
  is_octet x -> (String.length (utoa x) <= 3)%nat.
Proof.
  intros Hx.
  apply (utoa_length_checked (Z.to_nat 256) 3 0); [vm_compute; reflexivity|].
  rewrite Z2Nat.id by lia; exact Hx.
Qed.

Lemma utoa_port_length (x : Z) :
  0 <= x < 65536 -> (String.length (utoa x) <= 5)%nat.
Proof.
  intros Hx.
  apply (utoa_length_checked (Z.to_nat 65536) 5 0); [vm_compute; reflexivity|].
  rewrite Z2Nat.id by lia; exact Hx.
Qed.

Lemma pi_text_length (o : byte_order) (se : ip_vs_service_entry) :
  (String.length (pi_text o se) <= 24)%nat.
Proof.
  rewrite pi_text_shape.
  repeat (rewrite ?length_append; cbn [String.length]).
  pose proof (utoa_octet_length _ (octet_range o (se_addr se) 0)).
  pose proof (utoa_octet_length _ (octet_range o (se_addr se) 1)).
  pose proof (utoa_octet_length _ (octet_range o (se_addr se) 2)).
  pose proof (utoa_octet_length _ (octet_range o (se_addr se) 3)).
  pose proof (utoa_port_length _ (ntohs_range o (se_port se))).
  destruct (se_protocol se =? IPPROTO_TCP); cbn [String.length]; lia.
Qed.

Lemma ti_text_length (o : byte_order) (de : ip_vs_dest_entry) :
  (String.length (ti_text o de) <= 21)%nat.
Proof.
  rewrite ti_text_shape.
  repeat (rewrite ?length_append; cbn [String.length]).
  pose proof (utoa_octet_length _ (octet_range o (de_addr de) 0)).
  pose proof (utoa_octet_length _ (octet_range o (de_addr de) 1)).
  pose proof (utoa_octet_length _ (octet_range o (de_addr de) 2)).
  pose proof (utoa_octet_length _ (octet_range o (de_addr de) 3)).
  pose proof (utoa_port_length _ (ntohs_range o (de_port de))).
  lia.
Qed.

(** X6: a service identifier has at most 24 characters and a destination
    identifier at most 21, whatever the entry holds: with a buffer of at
    least 25 bytes [get_pi] always returns 0 with the whole text stored and
    nothing logged, and with at least 22 bytes so does [get_ti]. *)
Theorem identifiers_fit_25_bytes :
  forall (E : environment) (se : ip_vs_service_entry)
    (de : ip_vs_dest_entry) (buf : cbuf) (size : Z) (st : state),
    (24 < size ->
     get_pi E (Some se) (Some buf) size st =
       (Returned (0, Some (Cstr (pi_text (host_order E) se))), st)) /\
    (21 < size ->
     get_ti E (Some de) (Some buf) size st =
       (Returned (0, Some (Cstr (ti_text (host_order E) de))), st)).
Proof.
  intros E se de buf size st; split; intros Hsize.
  - apply get_pi_fits.
    pose proof (pi_text_length (host_order E) se); lia.
  - apply get_ti_fits.
    pose proof (ti_text_length (host_order E) de); lia.
Qed.

Lemma identifiers_fit_25_bytes_witness :
  get_pi round_trip_kernel
    (Some {| se_protocol := IPPROTO_UDP;
             se_addr := in_addr_of LittleEndian 255 255 255 255;
             se_port := htons LittleEndian 65535;
             se_fwmark := 0; se_num_dests := 0;
             se_stats := stats_5_10_20_100_200 |})
    (Some Uninit) 25 initial_state =
    (Returned (0, Some (Cstr "255.255.255.255_UDP65535")), initial_state).
Proof.
  destruct (identifiers_fit_25_bytes round_trip_kernel
              {| se_protocol := IPPROTO_UDP;
                 se_addr := in_addr_of LittleEndian 255 255 255 255;
                 se_port := htons LittleEndian 65535;
                 se_fwmark := 0; se_num_dests := 0;
                 se_stats := stats_5_10_20_100_200 |}
              (dest_10_0_0_2 LittleEndian) Uninit 25 initial_state)
    as [Hpi _].
  rewrite (Hpi ltac:(lia)); reflexivity.
Defined.

(** ** The calls of a poll cycle *)

Lemma calls_refl (P : syscall -> Prop) (st : state) : calls P st st.
Proof. exists []; split; [rewrite app_nil_r; reflexivity | constructor]. Qed.

Lemma calls_trans (P : syscall -> Prop) (st1 st2 st3 : state) :
  calls P st1 st2 -> calls P st2 st3 -> calls P st1 st3.
Proof.
  intros (n1 & H1 & P1) (n2 & H2 & P2); exists (n1 ++ n2)%list; split.
  - rewrite H2, H1, app_assoc; reflexivity.
  - apply Forall_app; split; assumption.
Qed.

Lemma calls_same (P : syscall -> Prop) (st st' : state) :
  history st' = history st -> calls P st st'.
Proof.
  intros H; exists []; split; [rewrite app_nil_r; exact H | constructor].
Qed.

Lemma calls_call (P : syscall -> Prop) (c : syscall) (st : state) :
  P c -> calls P st (add_history c st).
Proof.
  intros H; exists [c]; split; [reflexivity|].
  constructor; [exact H | constructor].
Qed.

Lemma calls_weaken (P P' : syscall -> Prop) (st st' : state) :
  (forall c, P c -> P' c) -> calls P st st' -> calls P' st st'.
Proof.
  intros H (new & Hh & HP); exists new; split; [exact Hh|].
  eapply Forall_impl; [exact H | exact HP].
Qed.

Lemma keeps_socket_refl (st : state) : keeps_socket st st.
Proof. split; [reflexivity | apply calls_refl]. Qed.

Lemma keeps_socket_trans (st1 st2 st3 : state) :
  keeps_socket st1 st2 -> keeps_socket st2 st3 -> keeps_socket st1 st3.
Proof.
  intros [Hfd1 Hc1] [Hfd2 Hc2]; split; [congruence|].
  rewrite Hfd1 in Hc2; eapply calls_trans; eassumption.
Qed.

Lemma keeps_socket_same (st st' : state) :
  sockfd st' = sockfd st -> history st' = history st -> keeps_socket st st'.
Proof. intros Hfd Hh; split; [exact Hfd | apply calls_same; exact Hh]. Qed.

Lemma keeps_socket_call (c : syscall) (st : state) :
  on_socket (sockfd st) c -> keeps_socket st (add_history c st).
Proof. intros H; split; [reflexivity | apply calls_call; exact H]. Qed.

(** A step of a run that keeps a preorder [R]: [same] shows a step that
    makes no call, [made] a step that makes a call allowed everywhere. *)
Ltac preorder_step refl trans same made :=
  first
    [ apply (steps_bind _ trans); [| intros ?]
    | apply (steps_ret _ refl)
    | apply (steps_exit _ refl)
    | apply (steps_fault _ refl)
    | apply (steps_get _ refl)
    | apply (steps_read_cstr _ refl)
    | apply steps_modify; intros ?; apply same; reflexivity
    | apply steps_call; intros ?; apply made; exact I
    | match goal with
      | |- steps _ (if ?b then _ else _) => destruct b
      | |- steps _ (let '(_, _) := ?x in _) => destruct x
      | |- steps _ (match ?x with _ => _ end) => destruct x
      end ].

Section Calls.

Variable E : environment.

(** What a destination fetch asks the system. *)
Lemma ipvs_get_dests_request (se : ip_vs_service_entry) (st : state) :
  let len := dests_len E (se_num_dests se) in
  sockfd (snd (ipvs_get_dests E se st)) = sockfd st /\
  (history (snd (ipvs_get_dests E se st)) =
     (history st ++ [SysMalloc len])%list \/
   history (snd (ipvs_get_dests E se st)) =
     (history st ++
      [SysMalloc len; SysGetDests (sockfd st) (dests_request se) len])%list).
Proof.
  intros len.
  unfold ipvs_get_dests, bind, get, call.
  fold len.
  destruct (sys_malloc E (history st) len); cbn [negb].
  - cbn [modify add_history history sockfd set_ipvs_func].
    change {| gd_protocol := se_protocol se; gd_addr := se_addr se;
              gd_port := se_port se; gd_fwmark := se_fwmark se;
              gd_num_dests := se_num_dests se; gd_entrytable := [] |}
      with (dests_request se).
    destruct (sys_get_dests E _ _ _ _) as [errno|dests].
    + unfold ipvs_strerror, bind, get.
      destruct (find _ strerror_table) as [[[func e] message]|];
        (split; [reflexivity|right; cbn; rewrite <- app_assoc; reflexivity]).
    + split; [reflexivity|right; cbn; rewrite <- app_assoc; reflexivity].
  - split; [reflexivity|left; reflexivity].
Qed.

Lemma ipvs_get_services_socket (st : state) :
  sockfd (snd (ipvs_get_services E st)) = sockfd st.
Proof.
  unfold ipvs_get_services, bind, get, call.
  destruct (sys_malloc E (history st) _); cbn [negb]; [|reflexivity].
  cbn [modify add_history history sockfd set_ipvs_func].
  destruct (sys_get_services E _ _ _ _) as [errno|services]; [|reflexivity].
  unfold ipvs_strerror, bind, get.
  destruct (find _ strerror_table) as [[[func e] message]|]; reflexivity.
Qed.

Section OneRelation.

Variable R : state -> state -> Prop.
Hypothesis R_refl : forall st, R st st.
Hypothesis R_trans : forall st1 st2 st3, R st1 st2 -> R st2 st3 -> R st1 st3.
Hypothesis R_same :
  forall st st',
    sockfd st' = sockfd st -> history st' = history st -> R st st'.
Hypothesis R_time : forall st, R st (add_history SysTime st).

Lemma get_ti_steps (de : option ip_vs_dest_entry) (ti : option cbuf)
  (size : Z) : steps R (get_ti E de ti size).
Proof.
  unfold get_ti, log_err; destruct de as [de|]; [destruct ti as [buf|]|];
    repeat preorder_step R_refl R_trans R_same R_time.
Qed.

Lemma get_pi_steps (se : option ip_vs_service_entry) (pi : option cbuf)
  (size : Z) : steps R (get_pi E se pi size).
Proof.
  unfold get_pi, log_err; destruct se as [se|]; [destruct pi as [buf|]|];
    repeat preorder_step R_refl R_trans R_same R_time.
Qed.

Lemma cipvs_submit_connections_steps (pi ti : option cbuf) (value : Z) :
  steps R (cipvs_submit_connections E pi ti value).
Proof.
  unfold cipvs_submit_connections, plugin_dispatch_values, type_instance_of;
    repeat first [ apply steps_call; intros ?; apply R_time
                 | preorder_step R_refl R_trans R_same R_time ].
Qed.

Lemma cipvs_submit_if_steps (pi : option cbuf) (t : string)
  (ti : option cbuf) (rx tx : Z) : steps R (cipvs_submit_if E pi t ti rx tx).
Proof.
  unfold cipvs_submit_if, plugin_dispatch_values, type_instance_of;
    repeat first [ apply steps_call; intros ?; apply R_time
                 | preorder_step R_refl R_trans R_same R_time ].
Qed.

Lemma cipvs_submit_dest_steps (pi : option cbuf) (de : ip_vs_dest_entry) :
  steps R (cipvs_submit_dest E pi de).
Proof.
  unfold cipvs_submit_dest;
    repeat first [ apply get_ti_steps | apply cipvs_submit_connections_steps
                 | apply cipvs_submit_if_steps
                 | preorder_step R_refl R_trans R_same R_time ].
Qed.

(** The submission of a service keeps [R] when its destination fetch
    does. *)
Lemma cipvs_submit_service_steps (se : ip_vs_service_entry) :
  steps R (ipvs_get_dests E se) -> steps R (cipvs_submit_service E se).
Proof.
  intros Hfetch; unfold cipvs_submit_service.
  apply (steps_bind _ R_trans); [exact Hfetch | intros dests].
  repeat first [ apply get_pi_steps | apply cipvs_submit_connections_steps
               | apply cipvs_submit_if_steps
               | apply (steps_for_each_entry _ R_refl R_trans);
                 intros ? _; apply cipvs_submit_dest_steps
               | preorder_step R_refl R_trans R_same R_time ].
Qed.

End OneRelation.

Lemma ipvs_get_dests_keeps_socket (se : ip_vs_service_entry) :
  steps keeps_socket (ipvs_get_dests E se).
Proof.
  intros st; destruct (ipvs_get_dests_request se st) as [Hfd [Hh|Hh]];
    (split; [exact Hfd|]); eexists; (split; [exact Hh|]);
    repeat constructor.
Qed.

Lemma ipvs_get_services_keeps_socket :
  steps keeps_socket (ipvs_get_services E).
Proof.
  intros st; split; [apply ipvs_get_services_socket|].
  destruct (ipvs_get_services_request E st) as [_ [Hh|Hh]];
    eexists; (split; [exact Hh|]); repeat constructor.
Qed.

Lemma cipvs_read_keeps_socket : steps keeps_socket (cipvs_read E).
Proof.
  unfold cipvs_read.
  apply (steps_bind _ keeps_socket_trans);
    [apply ipvs_get_services_keeps_socket | intros [services|]].
  - apply (steps_bind _ keeps_socket_trans);
      [|intros _; apply (steps_ret _ keeps_socket_refl)].
    apply (steps_for_each_entry _ keeps_socket_refl keeps_socket_trans).
    intros se _.
    apply (cipvs_submit_service_steps _ keeps_socket_refl keeps_socket_trans
             keeps_socket_same).
    + intros st; apply keeps_socket_call; exact I.
    + apply ipvs_get_dests_keeps_socket.
  - apply (steps_ret _ keeps_socket_refl).
Qed.

Lemma read_cycles_keeps_socket (n : nat) :
  steps keeps_socket (read_cycles E n).
Proof.
  induction n as [|n IH]; simpl.
  - apply (steps_ret _ keeps_socket_refl).
  - apply (steps_bind _ keeps_socket_trans);
      [apply cipvs_read_keeps_socket | intros _; exact IH].
Qed.

End Calls.

(** X7: any number of poll cycles leaves [sockfd] as it is; in them no
    socket is opened or closed, the global info is not fetched again, and
    every request to the kernel goes through [sockfd].  [cipvs_shutdown]
    after them closes that same descriptor and returns 0. *)
Theorem cycles_use_the_socket_of_init :
  forall (E : environment) (n : nat) (st : state),
    let st' := snd (read_cycles E n st) in
    keeps_socket st st' /\
    cipvs_shutdown st' =
      (Returned 0, add_history (SysClose (sockfd st)) st').
Proof.
  intros E n st st'.
  pose proof (read_cycles_keeps_socket E n st) as H.
  split; [exact H|].
  destruct H as [Hfd _]; fold st' in Hfd.
  unfold cipvs_shutdown, bind, get, call; rewrite Hfd; reflexivity.
Qed.

(** X8: in a poll cycle, after the fetch of the service table, every
    destination request names a service of the fetched table, with its
    protocol, address, port and mark, and is sized by the number of
    destinations that service reports; the service table is fetched once. *)
Theorem dest_requests_name_fetched_services :
  forall (E : environment) (st : state),
    calls
      (fun c =>
         exists services,
           fst (ipvs_get_services E st) = Returned (Some services) /\
           requested_for E (gs_entrytable services) c)
      (snd (ipvs_get_services E st)) (snd (cipvs_read E st)).
Proof.
  intros E st.
  unfold cipvs_read; unfold bind at 1.
  destruct (ipvs_get_services E st) as [[[services|]|c|] st1];
    cbn [fst snd]; try apply calls_refl.
  set (P := fun c =>
              exists services0,
                Returned (Some services) = Returned (Some services0) /\
                requested_for E (gs_entrytable services0) c).
  apply (steps_bind (calls P) (calls_trans P));
    [|intros _; apply (steps_ret _ (calls_refl P))].
  apply (steps_for_each_entry _ (calls_refl P) (calls_trans P)).
  intros se Hin.
  apply (cipvs_submit_service_steps E _ (calls_refl P) (calls_trans P)).
  - intros sa sb _ Hh; apply calls_same; exact Hh.
  - intros sa; apply calls_call.
    exists services; split; [reflexivity | exact I].
  - intros sa.
    destruct (ipvs_get_dests_request E se sa) as [_ [Hh|Hh]];
      eexists; (split; [exact Hh|]); repeat constructor;
      exists services; (split; [reflexivity|]); try exact I.
    exists se; repeat split; exact Hin.
Qed.

(** ** How a poll cycle can end *)

Lemma ends_in_bind {A B : Type} (F : Prop) (P : A -> Prop) (Q : B -> Prop)
  (m : M A) (f : A -> M B) :
  ends_in (ends F P) m ->
  (forall a, P a -> ends_in (ends F Q) (f a)) ->
  ends_in (ends F Q) (bind m f).
Proof.
  intros Hm Hf st; unfold bind.
  specialize (Hm st).
  destruct (m st) as [[a|status|] st1]; simpl in *; try exact Hm.
  apply (Hf a Hm).
Qed.

Lemma ends_in_ret {A : Type} (F : Prop) (P : A -> Prop) (a : A) :
  P a -> ends_in (ends F P) (ret a).
Proof. intros H st; exact H. Qed.

Lemma ends_in_weaken {A : Type} (F : Prop) (P Q : A -> Prop) (m : M A) :
  (forall a, P a -> Q a) -> ends_in (ends F P) m -> ends_in (ends F Q) m.
Proof.
  intros H Hm st; specialize (Hm st).
  destruct (fst (m st)); simpl in *; auto.
Qed.

(** A loop over a table that holds the entries the loop reads. *)
Lemma ends_in_for_each_entry {A : Type} (F : Prop) (table : list A)
  (body : A -> M unit) (count i : nat) :
  (forall a, In a table -> ends_in (ends F (fun _ => True)) (body a)) ->
  F \/ (i + count <= List.length table)%nat ->
  ends_in (ends F (fun _ => True)) (for_each_entry table i count body).
Proof.
  intros Hbody; revert i; induction count as [|count IH]; intros i Hlen;
    simpl.
  - apply ends_in_ret; exact I.
  - destruct (nth_error table i) as [a|] eqn:Hnth.
    + eapply ends_in_bind.
      * apply Hbody; eapply nth_error_In; exact Hnth.
      * intros _ _; apply IH.
        destruct Hlen as [HF|Hlen]; [left; exact HF | right; lia].
    + intros st; simpl.
      destruct Hlen as [HF|Hlen]; [exact HF|].
      apply nth_error_None in Hnth; lia.
Qed.

Section Outcomes.

Variable E : environment.
Variable F : Prop.

Hypothesis capacity : F \/ 0 < DATA_MAX_NAME_LEN E.
Hypothesis services_answers :
  forall h fd num_services len services,
    sys_get_services E h fd num_services len = inr services ->
    F \/ services_complete services.
Hypothesis dests_answers :
  forall h fd request len,
    match sys_get_dests E h fd request len with
    | inr dests => F \/ dests_complete dests
    | inl _ => F
    end.

Lemma ipvs_strerror_ends (err : Z) :
  ends_in (ends F (fun _ => True)) (ipvs_strerror E err).
Proof.
  intros st; destruct (ipvs_strerror_returns E err st) as [msg Hmsg].
  rewrite Hmsg; exact I.
Qed.

Lemma ipvs_get_services_ends :
  ends_in
    (ends F (fun r => match r with
                      | Some services => F \/ services_complete services
                      | None => True
                      end))
    (ipvs_get_services E).
Proof.
  intros st; unfold ipvs_get_services, bind, get, call.
  destruct (sys_malloc E (history st) _); cbn [negb]; [|reflexivity].
  cbn [modify add_history history sockfd set_ipvs_func].
  destruct (sys_get_services E _ _ _ _) as [errno|services] eqn:Hfetch.
  - destruct (ipvs_strerror_returns E errno
                (add_history
                   (SysGetServices (sockfd st)
                      (gi_num_services (ipvs_info st))
                      (services_len E (gi_num_services (ipvs_info st))))
                   (set_ipvs_func FuncGetServices
                      (add_history
                         (SysMalloc
                            (services_len E
                               (gi_num_services (ipvs_info st)))) st))))
      as [msg Hmsg].
    cbn [add_history set_ipvs_func history sockfd] in Hmsg.
    rewrite Hmsg; destruct msg; exact I.
  - simpl; eapply services_answers; exact Hfetch.
Qed.

Lemma ipvs_get_dests_ends (se : ip_vs_service_entry) :
  ends_in
    (ends F (fun r => match r with
                      | Some dests => F \/ dests_complete dests
                      | None => F
                      end))
    (ipvs_get_dests E se).
Proof.
  intros st; unfold ipvs_get_dests, bind, get, call.
  destruct (sys_malloc E (history st) _); cbn [negb]; [|reflexivity].
  cbn [modify add_history history sockfd set_ipvs_func].
  match goal with
  | |- context [sys_get_dests E ?h ?fd ?request ?len] =>
      pose proof (dests_answers h fd request len) as Hanswer;
      destruct (sys_get_dests E h fd request len) as [errno|dests]
  end.
  - match goal with
    | |- context [ipvs_strerror E errno ?s] =>
        destruct (ipvs_strerror_returns E errno s) as [msg Hmsg]
    end.
    rewrite Hmsg; destruct msg; exact Hanswer.
  - exact Hanswer.
Qed.

Lemma get_pi_ends (se : ip_vs_service_entry) :
  ends_in
    (ends F (fun r => fst r = 0 -> exists s, snd r = Some (Cstr s)))
    (get_pi E (Some se) (Some Uninit) (DATA_MAX_NAME_LEN E)).
Proof.
  intros st.
  destruct (Z.lt_ge_cases
              (Z.of_nat (String.length (pi_text (host_order E) se)))
              (DATA_MAX_NAME_LEN E)) as [Hfit|Hcut].
  - rewrite get_pi_fits by exact Hfit; simpl; intros _; eexists; reflexivity.
  - destruct (Z.lt_ge_cases 0 (DATA_MAX_NAME_LEN E)) as [Hpos|Hzero].
    + pose proof (get_pi_truncated E se Uninit _ st (conj Hpos Hcut)) as Heq.
      cbv zeta in Heq; rewrite Heq; simpl; discriminate.
    + unfold get_pi, snprintf.
      destruct (Z.ltb_spec 0 (DATA_MAX_NAME_LEN E)) as [Hlt|_]; [lia|].
      rewrite length_test_truncated by lia; simpl.
      destruct capacity as [HF|Hpos]; [exact HF | lia].
Qed.

Lemma get_ti_ends (de : ip_vs_dest_entry) :
  ends_in
    (ends F (fun r => fst r = 0 -> exists s, snd r = Some (Cstr s)))
    (get_ti E (Some de) (Some Uninit) (DATA_MAX_NAME_LEN E)).
Proof.
  intros st.
  destruct (Z.lt_ge_cases
              (Z.of_nat (String.length (ti_text (host_order E) de)))
              (DATA_MAX_NAME_LEN E)) as [Hfit|Hcut].
  - rewrite get_ti_fits by exact Hfit; simpl; intros _; eexists; reflexivity.
  - destruct (Z.lt_ge_cases 0 (DATA_MAX_NAME_LEN E)) as [Hpos|Hzero].
    + pose proof (get_ti_truncated E de Uninit _ st (conj Hpos Hcut)) as Heq.
      cbv zeta in Heq; rewrite Heq; simpl; discriminate.
    + unfold get_ti, snprintf.
      destruct (Z.ltb_spec 0 (DATA_MAX_NAME_LEN E)) as [Hlt|_]; [lia|].
      rewrite length_test_truncated by lia; simpl.
      destruct capacity as [HF|Hpos]; [exact HF | lia].
Qed.

Lemma cipvs_submit_dest_ends (pi : string) (de : ip_vs_dest_entry) :
  ends_in (ends F (fun _ => True)) (cipvs_submit_dest E (Some (Cstr pi)) de).
Proof.
  unfold cipvs_submit_dest.
  eapply ends_in_bind; [apply get_ti_ends|].
  intros [rc ti] Hti; simpl in Hti.
  destruct (Z.eqb_spec rc 0) as [->|Hne]; cbn [negb];
    [|apply ends_in_ret; exact I].
  destruct (Hti eq_refl) as [s ->].
  intros st.
  destruct (submit_entity_run E pi s (Some (Cstr s)) (de_stats de) st eq_refl)
    as (t1 & t2 & t3 & st' & Hrun & _).
  rewrite Hrun; exact I.
Qed.

Lemma cipvs_submit_service_ends (se : ip_vs_service_entry) :
  ends_in (ends F (fun _ => True)) (cipvs_submit_service E se).
Proof.
  unfold cipvs_submit_service.
  eapply ends_in_bind; [apply ipvs_get_dests_ends|].
  intros dests Hdests.
  eapply ends_in_bind; [apply get_pi_ends|].
  intros [rc pi] Hpi; simpl in Hpi.
  destruct (Z.eqb_spec rc 0) as [->|Hne]; cbn [negb];
    [|apply ends_in_ret; exact I].
  destruct (Hpi eq_refl) as [s ->].
  intros st.
  destruct (submit_entity_run E s "total" None (se_stats se) st eq_refl)
    as (t1 & t2 & t3 & st' & Hrun & _).
  unfold bind at 1 2 in Hrun; unfold bind at 1 2 3.
  destruct (cipvs_submit_connections E _ None _ st) as [[[]|c|] sa];
    try discriminate.
  destruct (cipvs_submit_if E _ "if_packets" None _ _ sa) as [[[]|c|] sb];
    try discriminate.
  destruct (cipvs_submit_if E _ "if_octets" None _ _ sb) as [[[]|c|] sc];
    try discriminate.
  destruct dests as [d|]; [|exact Hdests].
  apply ends_in_for_each_entry.
  - intros de _; apply cipvs_submit_dest_ends.
  - exact Hdests.
Qed.

Lemma cipvs_read_ends :
  ends_in (ends F (fun r => r = 0 \/ r = -1)) (cipvs_read E).
Proof.
  unfold cipvs_read.
  eapply ends_in_bind; [apply ipvs_get_services_ends|].
  intros [services|] Hservices; [|apply ends_in_ret; right; reflexivity].
  eapply ends_in_bind.
  - apply ends_in_for_each_entry.
    + intros se _; apply cipvs_submit_service_ends.
    + exact Hservices.
  - intros _ _; apply ends_in_ret; left; reflexivity.
Qed.

Lemma read_cycles_ends (n : nat) :
  ends_in (ends F (fun _ => True)) (read_cycles E n).
Proof.
  induction n as [|n IH]; simpl.
  - apply ends_in_ret; exact I.
  - eapply ends_in_bind; [apply cipvs_read_ends | intros _ _; exact IH].
Qed.

End Outcomes.

(** X9: [cipvs_read] returns 0 or -1 and nothing else, and the only exit
    status of the process is 3; it returns -1 exactly when the service
    table fetch returns NULL, so neither a failed destination fetch nor a
    truncated identifier is reported to the daemon. *)
Theorem cipvs_read_outcomes :
  forall (E : environment) (st : state) (n : nat),
    ends True (fun r => r = 0 \/ r = -1) (fst (cipvs_read E st)) /\
    (fst (cipvs_read E st) = Returned (-1) <->
     fst (ipvs_get_services E st) = Returned None) /\
    ends True (fun _ => True) (fst (read_cycles E n st)).
Proof.
  intros E st n.
  assert (Hd : forall h fd request len,
             match sys_get_dests E h fd request len with
             | inr dests => True \/ dests_complete dests
             | inl _ => True
             end).
  { intros h fd request len; destruct (sys_get_dests E h fd request len);
      auto. }
  split; [|split].
  - apply (cipvs_read_ends E True); auto.
  - unfold cipvs_read, bind.
    destruct (ipvs_get_services E st) as [[[services|]|c|] st1]; cbn [fst].
    + destruct (for_each_entry _ _ _ _ st1) as [[[]|c|] st2]; cbn [fst];
        split; discriminate.
    + split; reflexivity.
    + split; discriminate.
    + split; discriminate.
  - apply (read_cycles_ends E True); auto.
Qed.

(** *** Runs that read nothing through the dead [errbuf] *)

Lemma for_each_entry_ext {A : Type} (table : list A)
  (body body' : A -> M unit) :
  (forall a st, body' a st = body a st) ->
  forall (count i : nat) (st : state),
    for_each_entry table i count body' st =
    for_each_entry table i count body st.
Proof.
  intros Hbody; induction count as [|count IH]; intros i st; simpl;
    [reflexivity|].
  destruct (nth_error table i) as [a|]; [|reflexivity].
  unfold bind; rewrite Hbody.
  destruct (body a st) as [[[]|c|] s1]; try reflexivity.
  apply IH.
Qed.

Section DeadErrbuf.

Variable E : environment.
Variable stale : list syscall -> string -> string.
Hypothesis behaved : well_behaved E.

Lemma ipvs_get_services_same (st : state) :
  ipvs_get_services (with_dead_errbuf stale E) st = ipvs_get_services E st.
Proof.
  destruct behaved as (_ & _ & Herr & _).
  unfold ipvs_get_services, bind, get, call.
  change (sys_malloc (with_dead_errbuf stale E)) with (sys_malloc E).
  change (sys_get_services (with_dead_errbuf stale E))
    with (sys_get_services E).
  change (services_len (with_dead_errbuf stale E)) with (services_len E).
  destruct (sys_malloc E (history st) _); cbn [negb]; [|reflexivity].
  cbn [modify add_history history sockfd set_ipvs_func].
  destruct (sys_get_services E _ _ _ _) as [errno|services] eqn:Hfetch;
    [|reflexivity].
  destruct (Herr _ _ _ _ _ Hfetch) as [->|[->|[->|[->| ->]]]]; reflexivity.
Qed.

Lemma ipvs_get_dests_same (se : ip_vs_service_entry) (st : state) :
  ipvs_get_dests (with_dead_errbuf stale E) se st = ipvs_get_dests E se st.
Proof.
  destruct behaved as (_ & _ & _ & Hdests).
  unfold ipvs_get_dests, bind, get, call.
  change (sys_malloc (with_dead_errbuf stale E)) with (sys_malloc E).
  change (sys_get_dests (with_dead_errbuf stale E)) with (sys_get_dests E).
  change (dests_len (with_dead_errbuf stale E)) with (dests_len E).
  destruct (sys_malloc E (history st) _); cbn [negb]; [|reflexivity].
  cbn [modify add_history history sockfd set_ipvs_func].
  match goal with
  | |- context [sys_get_dests E ?h ?fd ?request ?len] =>
      destruct (Hdests h fd request len) as (dests & Heq & _);
      rewrite Heq
  end.
  reflexivity.
Qed.

Lemma cipvs_submit_service_same (se : ip_vs_service_entry) (st : state) :
  cipvs_submit_service (with_dead_errbuf stale E) se st =
  cipvs_submit_service E se st.
Proof.
  unfold cipvs_submit_service; unfold bind at 1 5.
  rewrite ipvs_get_dests_same; reflexivity.
Qed.

Lemma cipvs_read_same (st : state) :
  cipvs_read (with_dead_errbuf stale E) st = cipvs_read E st.
Proof.
  unfold cipvs_read; unfold bind at 1 3.
  rewrite ipvs_get_services_same.
  destruct (ipvs_get_services E st) as [[[services|]|c|] st1];
    try reflexivity.
  unfold bind.
  rewrite (for_each_entry_ext _ _ _ cipvs_submit_service_same).
  reflexivity.
Qed.

Lemma read_cycles_same (n : nat) (st : state) :
  read_cycles (with_dead_errbuf stale E) n st = read_cycles E n st.
Proof.
  revert st; induction n as [|n IH]; intros st; simpl; [reflexivity|].
  unfold bind; rewrite cipvs_read_same.
  destruct (cipvs_read E st) as [[r|c|] st1]; try reflexivity.
  apply IH.
Qed.

End DeadErrbuf.

(** X10: on a host whose names hold at least six bytes and a kernel that
    answers every destination request, refuses a service table request
    only with an error for which [ipvs_strerror] has a message, and whose
    tables hold the entries they announce, no poll cycle faults:
    [cipvs_read] returns 0 or -1 or the process exits with status 3, each
    time.  Nothing is read through the pointer to the dead [errbuf]
    either: the runs are the same whatever is at that address. *)
Theorem well_behaved_cycles_never_fault :
  forall E : environment,
    well_behaved E ->
    forall (st : state) (n : nat),
      ends False (fun r => r = 0 \/ r = -1) (fst (cipvs_read E st)) /\
      fst (read_cycles E n st) <> Fault /\
      forall stale : list syscall -> string -> string,
        cipvs_read (with_dead_errbuf stale E) st = cipvs_read E st /\
        read_cycles (with_dead_errbuf stale E) n st = read_cycles E n st.
Proof.
  intros E Hbehaved st n.
  pose proof Hbehaved as (Hroom & Hs & _ & Hd).
  assert (Hcap : 0 < DATA_MAX_NAME_LEN E) by lia.
  assert (Hd' : forall h fd request len,
             match sys_get_dests E h fd request len with
             | inr dests => False \/ dests_complete dests
             | inl _ => False
             end).
  { intros h fd request len.
    destruct (Hd h fd request len) as (dests & -> & Hc); right; exact Hc. }
  assert (Hs' : forall h fd num_services len services,
             sys_get_services E h fd num_services len = inr services ->
             False \/ services_complete services).
  { intros h fd num_services len services H; right; eapply Hs; exact H. }
  split; [|split].
  - apply (cipvs_read_ends E False); auto.
  - pose proof (read_cycles_ends E False (or_intror Hcap) Hs' Hd' n st) as H.
    intros Hfault; rewrite Hfault in H; exact H.
  - intros stale; split.
    + apply cipvs_read_same; exact Hbehaved.
    + apply read_cycles_same; exact Hbehaved.
Qed.

Lemma well_behaved_cycles_never_fault_witness :
  let refusing :=
    with_get_services (fun _ _ _ _ => inl ESRCH) steady_kernel in
  fst (read_cycles steady_kernel 3 (after_init steady_kernel)) <> Fault /\
  cipvs_read (with_dead_errbuf (fun _ _ => "stale") refusing)
    (after_init refusing) =
  cipvs_read refusing (after_init refusing).
Proof.
  intros refusing.
  assert (H : well_behaved steady_kernel).
  { split; [reflexivity|split; [|split]].
    - intros h fd num_services len services Heq.
      injection Heq as <-; unfold services_complete; simpl; lia.
    - intros h fd num_services len errno Heq; discriminate Heq.
    - intros h fd request len; eexists; split; [reflexivity|].
      unfold dests_complete; simpl; lia. }
  assert (H' : well_behaved refusing).
  { split; [reflexivity|split; [|split]].
    - intros h fd num_services len services Heq; discriminate Heq.
    - intros h fd num_services len errno Heq.
      injection Heq as <-; unfold table_error; auto.
    - intros h fd request len; eexists; split; [reflexivity|].
      unfold dests_complete; simpl; lia. }
  split.
  - apply (well_behaved_cycles_never_fault steady_kernel H
             (after_init steady_kernel) 3).
  - apply (well_behaved_cycles_never_fault refusing H'
             (after_init refusing) 0%nat).
Defined.

(** ** Samples come in groups of three *)

Lemma in_triples_refl (E : environment) (st : state) : in_triples E st st.
Proof. exists []; unfold dispatches; simpl; rewrite app_nil_r; reflexivity. Qed.

Lemma in_triples_trans (E : environment) (st1 st2 st3 : state) :
  in_triples E st1 st2 -> in_triples E st2 st3 -> in_triples E st1 st3.
Proof.
  intros (g1 & H1) (g2 & H2); exists (g1 ++ g2)%list.
  unfold dispatches in *; rewrite H2, H1, flat_map_app, app_assoc.
  reflexivity.
Qed.

Lemma quiet_in_triples (E : environment) (st st' : state) :
  quiet st st' -> in_triples E st st'.
Proof.
  intros H; exists []; unfold dispatches; simpl; rewrite app_nil_r; exact H.
Qed.

Lemma get_pi_quiet (E : environment) (se : option ip_vs_service_entry)
  (pi : option cbuf) (size : Z) : steps quiet (get_pi E se pi size).
Proof.
  unfold get_pi; destruct se as [se|]; [destruct pi as [buf|]|];
    repeat first [apply log_err_quiet | quiet_step].
Qed.

Lemma get_ti_quiet (E : environment) (de : option ip_vs_dest_entry)
  (ti : option cbuf) (size : Z) : steps quiet (get_ti E de ti size).
Proof.
  unfold get_ti; destruct de as [de|]; [destruct ti as [buf|]|];
    repeat first [apply log_err_quiet | quiet_step].
Qed.

(** The three submit calls followed by the rest of the function. *)
Lemma bind_three_then {B : Type} (a b c : M unit) (k : M B) (st : state) :
  (a ;; b ;; c ;; k) st = ((a ;; b ;; c) ;; k) st.
Proof.
  unfold bind.
  destruct (a st) as [[[]|s|] sa]; try reflexivity.
  destruct (b sa) as [[[]|s|] sb]; try reflexivity.
Qed.

Section Triples.

Variable E : environment.

(** The three submit calls dispatch the three value lists of one group, or
    nothing when an identifier cannot be read. *)
Lemma submit_entity_in_triples (pi ti : option cbuf)
  (stats : ip_vs_stats_user) :
  steps (in_triples E)
    (cipvs_submit_connections E pi ti (conns stats) ;;
     cipvs_submit_if E pi "if_packets" ti (inpkts stats) (outpkts stats) ;;
     cipvs_submit_if E pi "if_octets" ti (inbytes stats) (outbytes stats)).
Proof.
  intros st.
  destruct pi as [[|p]|];
    try (apply quiet_in_triples; reflexivity).
  destruct ti as [[|t]|];
    try (apply quiet_in_triples; reflexivity).
  - destruct (submit_entity_run E p t (Some (Cstr t)) stats st eq_refl)
      as (t1 & t2 & t3 & st' & Hrun & Hd & _).
    rewrite Hrun.
    exists [{| eg_pi := p; eg_ti := t; eg_stats := stats;
               eg_t1 := t1; eg_t2 := t2; eg_t3 := t3 |}].
    unfold dispatches in *; cbn [snd]; rewrite Hd; reflexivity.
  - destruct (submit_entity_run E p "total" None stats st eq_refl)
      as (t1 & t2 & t3 & st' & Hrun & Hd & _).
    rewrite Hrun.
    exists [{| eg_pi := p; eg_ti := "total"; eg_stats := stats;
               eg_t1 := t1; eg_t2 := t2; eg_t3 := t3 |}].
    unfold dispatches in *; cbn [snd]; rewrite Hd; reflexivity.
Qed.

Lemma cipvs_submit_dest_in_triples (pi : option cbuf)
  (de : ip_vs_dest_entry) :
  steps (in_triples E) (cipvs_submit_dest E pi de).
Proof.
  unfold cipvs_submit_dest.
  apply (steps_bind _ (in_triples_trans E)).
  - eapply steps_weaken; [apply quiet_in_triples | apply get_ti_quiet].
  - intros [rc ti]; destruct (negb (rc =? 0)).
    + apply (steps_ret _ (in_triples_refl E)).
    + apply submit_entity_in_triples.
Qed.

Lemma cipvs_submit_service_in_triples (se : ip_vs_service_entry) :
  steps (in_triples E) (cipvs_submit_service E se).
Proof.
  unfold cipvs_submit_service.
  apply (steps_bind _ (in_triples_trans E)).
  { eapply steps_weaken; [apply quiet_in_triples | apply ipvs_get_dests_quiet]. }
  intros dests.
  apply (steps_bind _ (in_triples_trans E)).
  { eapply steps_weaken; [apply quiet_in_triples | apply get_pi_quiet]. }
  intros [rc pi]; destruct (negb (rc =? 0)).
  { apply (steps_ret _ (in_triples_refl E)). }
  intros st; rewrite bind_three_then; revert st.
  apply (steps_bind _ (in_triples_trans E)).
  { apply submit_entity_in_triples. }
  intros _; destruct dests as [d|].
  - apply (steps_for_each_entry _ (in_triples_refl E) (in_triples_trans E)).
    intros de _; apply cipvs_submit_dest_in_triples.
  - apply (steps_fault _ (in_triples_refl E)).
Qed.

Lemma cipvs_read_in_triples : steps (in_triples E) (cipvs_read E).
Proof.
  unfold cipvs_read.
  apply (steps_bind _ (in_triples_trans E)).
  { eapply steps_weaken;
      [apply quiet_in_triples | apply ipvs_get_services_quiet]. }
  intros [services|]; [|apply (steps_ret _ (in_triples_refl E))].
  apply (steps_bind _ (in_triples_trans E));
    [|intros _; apply (steps_ret _ (in_triples_refl E))].
  apply (steps_for_each_entry _ (in_triples_refl E) (in_triples_trans E)).
  intros se _; apply cipvs_submit_service_in_triples.
Qed.

Lemma read_cycles_in_triples (n : nat) :
  steps (in_triples E) (read_cycles E n).
Proof.
  induction n as [|n IH]; simpl.
  - apply (steps_ret _ (in_triples_refl E)).
  - apply (steps_bind _ (in_triples_trans E));
      [apply cipvs_read_in_triples | intros _; exact IH].
Qed.

Lemma group_samples_well_formed (g : entity_group) :
  Forall (well_formed_sample E) (group_samples E g).
Proof.
  unfold group_samples, entity_samples, well_formed_sample.
  constructor; [|constructor; [|constructor; [|constructor]]]; simpl;
    (split; [reflexivity | split; [reflexivity | split; [reflexivity|]]]).
  - left; split; reflexivity.
  - right; split; [left; reflexivity | reflexivity].
  - right; split; [right; reflexivity | reflexivity].
Qed.

End Triples.

Lemma in_groups_refl (E : environment) (Q : entity_group -> Prop)
  (st : state) : in_groups E Q st st.
Proof.
  exists []; split; [|constructor].
  unfold dispatches; simpl; rewrite app_nil_r; reflexivity.
Qed.

Lemma in_groups_trans (E : environment) (Q : entity_group -> Prop)
  (st1 st2 st3 : state) :
  in_groups E Q st1 st2 -> in_groups E Q st2 st3 -> in_groups E Q st1 st3.
Proof.
  intros (g1 & H1 & Q1) (g2 & H2 & Q2); exists (g1 ++ g2)%list; split.
  - unfold dispatches in *; rewrite H2, H1, flat_map_app, app_assoc.
    reflexivity.
  - apply Forall_app; split; assumption.
Qed.

Lemma quiet_in_groups (E : environment) (Q : entity_group -> Prop)
  (st st' : state) : quiet st st' -> in_groups E Q st st'.
Proof.
  intros H; exists []; split; [|constructor].
  unfold dispatches; simpl; rewrite app_nil_r; exact H.
Qed.

Lemma in_groups_weaken (E : environment) (Q Q' : entity_group -> Prop)
  (st st' : state) :
  (forall g, Q g -> Q' g) -> in_groups E Q st st' -> in_groups E Q' st st'.
Proof.
  intros H (groups & Hd & HQ); exists groups; split; [exact Hd|].
  eapply Forall_impl; [exact H | exact HQ].
Qed.

(** One group: the three value lists of an entity. *)
Lemma one_group (E : environment) (Q : entity_group -> Prop)
  (pi ti : string) (stats : ip_vs_stats_user) (t1 t2 t3 : Z)
  (st st' : state) :
  dispatches (entity_samples E pi ti stats t1 t2 t3) st st' ->
  Q {| eg_pi := pi; eg_ti := ti; eg_stats := stats;
       eg_t1 := t1; eg_t2 := t2; eg_t3 := t3 |} ->
  in_groups E Q st st'.
Proof.
  intros Hd HQ.
  exists [{| eg_pi := pi; eg_ti := ti; eg_stats := stats;
             eg_t1 := t1; eg_t2 := t2; eg_t3 := t3 |}]; split.
  - unfold dispatches in *; rewrite Hd; cbn [flat_map group_samples eg_pi
      eg_ti eg_stats eg_t1 eg_t2 eg_t3]; rewrite app_nil_r; reflexivity.
  - constructor; [exact HQ | constructor].
Qed.

Section Groups.

Variable E : environment.

(** The group [cipvs_submit_dest] dispatches for a destination: the plugin
    instance it was called with, the identifier of the destination and the
    counters of the destination. *)
Lemma cipvs_submit_dest_in_groups (pi : string) (de : ip_vs_dest_entry) :
  steps
    (in_groups E (fun g =>
                    eg_pi g = pi /\
                    eg_ti g = ti_text (host_order E) de /\
                    eg_stats g = de_stats de))
    (cipvs_submit_dest E (Some (Cstr pi)) de).
Proof.
  intros st.
  destruct (get_ti_cases E de Uninit (DATA_MAX_NAME_LEN E) st)
    as [[_ Hfit]|(Hrc & Hq & _)].
  - destruct (cipvs_submit_dest_fits E pi de st Hfit)
      as (t1 & t2 & t3 & st' & Hrun & Hd & _).
    rewrite Hrun; cbn [snd].
    eapply one_group; [exact Hd|]; repeat split.
  - apply quiet_in_groups.
    apply (failed_builder_quiet _ _ st Hrc Hq).
Qed.

(** The groups dispatched while a service is submitted: the group of the
    service, then groups of the destinations fetched for it. *)
Lemma cipvs_submit_service_in_groups (se : ip_vs_service_entry) :
  steps (in_groups E (fun g => service_group E se g \/ dest_group E se g))
    (cipvs_submit_service E se).
Proof.
  intros st.
  destruct (ipvs_get_dests E se st) as [o st1] eqn:Hfetch.
  pose proof (ipvs_get_dests_quiet E se st) as Hq0.
  rewrite Hfetch in Hq0; simpl in Hq0.
  destruct o as [d|c|].
  - destruct (get_pi_cases E se Uninit (DATA_MAX_NAME_LEN E) st1)
      as [[_ Hfit]|(Hrc & Hq & _)].
    + destruct (cipvs_submit_service_fits E se d st st1 Hfetch Hfit)
        as (t1 & t2 & t3 & st2 & Hd & _ & Hrun).
      rewrite Hrun.
      assert (Hsvc : in_groups E (fun g => service_group E se g \/
                                           dest_group E se g) st st2).
      { eapply one_group.
        - unfold dispatches in *; rewrite Hd, Hq0; reflexivity.
        - left; repeat split. }
      destruct d as [dests|]; [|exact Hsvc].
      eapply in_groups_trans; [exact Hsvc|].
      apply (steps_for_each_entry _ (in_groups_refl E _)
               (in_groups_trans E _)).
      intros de Hin.
      eapply steps_weaken; [|apply cipvs_submit_dest_in_groups].
      intros sa sb; apply in_groups_weaken.
      intros g (Hpi & Hti & Hstats); right; split; [exact Hpi|].
      exists st, dests, de; rewrite Hfetch; repeat split; assumption.
    + apply quiet_in_groups.
      unfold cipvs_submit_service; unfold bind at 1; rewrite Hfetch.
      eapply quiet_trans; [exact Hq0|].
      apply (failed_builder_quiet _ _ st1 Hrc Hq).
  - apply quiet_in_groups.
    unfold cipvs_submit_service; unfold bind at 1; rewrite Hfetch.
    exact Hq0.
  - apply quiet_in_groups.
    unfold cipvs_submit_service; unfold bind at 1; rewrite Hfetch.
    exact Hq0.
Qed.

End Groups.

(** X11: whatever the kernel answers and however the cycle ends, the
    samples a poll cycle dispatches are whole groups of three, a
    connections, an if_packets and an if_octets value list in this order,
    and each group is that of one entity: of a service of the fetched
    table, with the identifier of the service as plugin instance, the type
    instance total and the counters of the service, or of a destination of
    the table fetched for such a service, with the identifier of the
    service as plugin instance, the identifier of the destination as type
    instance and the counters of the destination.  A fault or an exit
    never leaves a group incomplete. *)
Theorem cycle_samples_are_entity_triples :
  forall (E : environment) (st : state),
    in_groups E
      (fun g =>
         exists services,
           fst (ipvs_get_services E st) = Returned (Some services) /\
           cycle_group E (gs_entrytable services) g)
      st (snd (cipvs_read E st)).
Proof.
  intros E st.
  unfold cipvs_read; unfold bind at 1.
  pose proof (ipvs_get_services_quiet E st) as Hq.
  destruct (ipvs_get_services E st) as [[[services|]|c|] st1];
    simpl in Hq; try (apply quiet_in_groups; exact Hq).
  eapply in_groups_trans; [apply quiet_in_groups; exact Hq|].
  set (Q := fun g =>
              exists services0,
                fst (Returned (Some services), st1) =
                  Returned (Some services0) /\
                cycle_group E (gs_entrytable services0) g).
  change (in_groups E Q st1
            (snd ((for_each_entry (gs_entrytable services) 0
                     (Z.to_nat (gs_num_services services))
                     (cipvs_submit_service E) ;; ret 0) st1))).
  apply (steps_bind _ (in_groups_trans E Q)).
  - apply (steps_for_each_entry _ (in_groups_refl E Q) (in_groups_trans E Q)).
    intros se Hin.
    eapply steps_weaken; [|apply cipvs_submit_service_in_groups].
    intros sa sb; apply in_groups_weaken.
    intros g Hg; exists services; split; [reflexivity|].
    exists se; split; assumption.
  - intros _; apply (steps_ret _ (in_groups_refl E Q)).
Qed.

(** X12: every sample dispatched in any number of poll cycles has the
    plugin name ipvs, the host name and the interval of the daemon, and
    either the type connections with one value or one of the types
    if_packets and if_octets with two values. *)
Theorem samples_are_well_formed :
  forall (E : environment) (n : nat) (st : state),
    emits (well_formed_sample E) st (snd (read_cycles E n st)).
Proof.
  intros E n st.
  destruct (read_cycles_in_triples E n st) as (groups & Hd).
  eexists; split; [exact Hd|].
  clear Hd; induction groups as [|g groups IH];
    cbn [flat_map]; [constructor|].
  apply Forall_app; split; [apply group_samples_well_formed | exact IH].
Qed.

(** ** Every entity of a finished cycle is reported *)

(** In a loop that returned, the body ran and returned for every index of
    the loop. *)
Lemma for_each_entry_returned {A : Type} (R : state -> state -> Prop)
  (table : list A) (body : A -> M unit) :
  (forall st, R st st) ->
  (forall st1 st2 st3, R st1 st2 -> R st2 st3 -> R st1 st3) ->
  (forall a, steps R (body a)) ->
  forall (count i : nat) (st st' : state),
    for_each_entry table i count body st = (Returned tt, st') ->
    forall j, (i <= j < i + count)%nat ->
      exists a sa sb,
        nth_error table j = Some a /\ R st sa /\
        body a sa = (Returned tt, sb) /\ R sb st'.
Proof.
  intros R_refl R_trans Hbody.
  induction count as [|count IH]; intros i st st' Hrun j Hj; [lia|].
  simpl in Hrun.
  destruct (nth_error table i) as [a|] eqn:Hnth; [|discriminate].
  unfold bind in Hrun.
  pose proof (Hbody a st) as Hstep.
  destruct (body a st) as [[[]|c|] s1] eqn:Hb; try discriminate.
  simpl in Hstep.
  destruct (Nat.eq_dec j i) as [->|Hne].
  - exists a, st, s1; repeat split; auto.
    pose proof (steps_for_each_entry R R_refl R_trans table body count (S i)
                  (fun a _ => Hbody a) s1) as Hrest.
    rewrite Hrun in Hrest; exact Hrest.
  - destruct (IH (S i) s1 st' Hrun j ltac:(lia))
      as (a' & sa & sb & Hn & Hsa & Hb' & Hsb).
    exists a', sa, sb; repeat split; auto.
    eapply R_trans; eassumption.
Qed.

Lemma cipvs_submit_dest_extends (E : environment) (pi : string)
  (de : ip_vs_dest_entry) :
  steps (emits (fun _ => True)) (cipvs_submit_dest E (Some (Cstr pi)) de).
Proof.
  eapply steps_weaken; [|apply cipvs_submit_dest_emits].
  intros sa sb; apply emits_weaken; intros; exact I.
Qed.

Lemma cipvs_submit_service_extends (E : environment)
  (se : ip_vs_service_entry) :
  steps (emits (fun _ => True)) (cipvs_submit_service E se).
Proof.
  eapply steps_weaken; [|apply cipvs_submit_service_emits].
  intros sa sb; apply emits_weaken; intros; exact I.
Qed.

(** A service submission that returned, for a service whose identifier
    fits: its three samples were dispatched, and its destination table was
    fetched and read to the end. *)
Lemma cipvs_submit_service_returned (E : environment)
  (se : ip_vs_service_entry) (sa sb : state) :
  cipvs_submit_service E se sa = (Returned tt, sb) ->
  Z.of_nat (String.length (pi_text (host_order E) se)) < DATA_MAX_NAME_LEN E ->
  exists dests s1 s2 t1 t2 t3,
    ipvs_get_dests E se sa = (Returned (Some dests), s1) /\
    dispatched s1 = dispatched sa /\
    dispatches
      (entity_samples E (pi_text (host_order E) se) "total" (se_stats se)
         t1 t2 t3) s1 s2 /\
    for_each_entry (gd_entrytable dests) 0 (Z.to_nat (gd_num_dests dests))
      (cipvs_submit_dest E (Some (Cstr (pi_text (host_order E) se)))) s2 =
      (Returned tt, sb).
Proof.
  intros Hrun Hfit.
  destruct (ipvs_get_dests E se sa) as [od s1] eqn:Hfetch.
  pose proof (ipvs_get_dests_quiet E se sa) as Hq.
  rewrite Hfetch in Hq; unfold quiet in Hq; simpl in Hq.
  destruct od as [d|c|];
    try (unfold cipvs_submit_service in Hrun; unfold bind at 1 in Hrun;
         rewrite Hfetch in Hrun; discriminate).
  destruct (cipvs_submit_service_fits E se d sa s1 Hfetch Hfit)
    as (t1 & t2 & t3 & s2 & Hd & _ & Heq).
  rewrite Heq in Hrun.
  destruct d as [dests|]; [|discriminate].
  exists dests, s1, s2, t1, t2, t3; repeat split; assumption.
Qed.

(** X13: in a poll cycle that returns 0, every service among the entries
    the fetched table announces whose identifier fits has its three
    samples dispatched in that cycle, with its identifier as plugin
    instance, the type instance total and its own counters. *)
Theorem finished_cycle_reports_every_service :
  forall (E : environment) (st : state) (services : ip_vs_get_services)
    (se : ip_vs_service_entry) (j : nat),
    fst (ipvs_get_services E st) = Returned (Some services) ->
    fst (cipvs_read E st) = Returned 0 ->
    nth_error (gs_entrytable services) j = Some se ->
    (j < Z.to_nat (gs_num_services services))%nat ->
    Z.of_nat (String.length (pi_text (host_order E) se))
      < DATA_MAX_NAME_LEN E ->
    exists t1 t2 t3 before after,
      dispatched (snd (cipvs_read E st)) =
        (dispatched st ++ before ++
         entity_samples E (pi_text (host_order E) se) "total" (se_stats se)
           t1 t2 t3 ++ after)%list.
Proof.
  intros E st services se j Hfetch Hret Hnth Hj Hfit.
  destruct (ipvs_get_services E st) as [o st1] eqn:Hs.
  simpl in Hfetch; subst o.
  pose proof (ipvs_get_services_quiet E st) as Hq.
  rewrite Hs in Hq; unfold quiet in Hq; simpl in Hq.
  unfold cipvs_read in *; unfold bind at 1 in Hret; unfold bind at 1.
  rewrite Hs in *.
  unfold bind in *.
  destruct (for_each_entry _ _ _ _ st1) as [[[]|c|] st2] eqn:Hloop;
    try discriminate.
  destruct (for_each_entry_returned (emits (fun _ => True)) _ _
              (emits_refl _) (emits_trans _)
              (cipvs_submit_service_extends E) _ _ _ _ Hloop j
              ltac:(lia))
    as (a & sa & sb & Hn & (n1 & H1 & _) & Hb & (n4 & H4 & _)).
  rewrite Hnth in Hn; injection Hn as <-.
  destruct (cipvs_submit_service_returned E se sa sb Hb Hfit)
    as (dests & s1 & s2 & t1 & t2 & t3 & _ & Hq1 & Hd & Hdloop).
  pose proof (steps_for_each_entry _ (emits_refl _) (emits_trans _)
                (gd_entrytable dests)
                (cipvs_submit_dest E
                   (Some (Cstr (pi_text (host_order E) se))))
                (Z.to_nat (gd_num_dests dests)) 0%nat
                (fun de _ => cipvs_submit_dest_extends E _ de) s2)
    as (n3 & H3 & _).
  rewrite Hdloop in H3.
  exists t1, t2, t3, n1, (n3 ++ n4)%list.
  unfold dispatches, ret in *; cbn [snd] in *.
  rewrite H4, H3, Hd, Hq1, H1, Hq, <- !app_assoc; reflexivity.
Qed.

Lemma finished_cycle_reports_every_service_witness :
  exists t1 t2 t3 before after,
    dispatched (snd (first_cycle round_trip_kernel)) =
      (before ++
       entity_samples round_trip_kernel "10.0.0.1_TCP80" "total"
         stats_5_10_20_100_200 t1 t2 t3 ++ after)%list.
Proof.
  destruct (finished_cycle_reports_every_service round_trip_kernel
              (after_init round_trip_kernel)
              {| gs_num_services := 1;
                 gs_entrytable := [service_10_0_0_1 LittleEndian] |}
              (service_10_0_0_1 LittleEndian) 0%nat)
    as (t1 & t2 & t3 & before & after & H);
    [reflexivity | reflexivity | reflexivity | simpl; lia
    | vm_compute; reflexivity |].
  exists t1, t2, t3, before, after; exact H.
Defined.

(** X14: when the submission of a service whose identifier fits returns,
    every destination among the entries the fetched destination table
    announces whose identifier fits has its three samples dispatched, with
    the identifier of the service as plugin instance, its own identifier
    as type instance and its own counters. *)
Theorem finished_service_reports_every_dest :
  forall (E : environment) (se : ip_vs_service_entry) (st : state)
    (dests : ip_vs_get_dests) (de : ip_vs_dest_entry) (k : nat),
    fst (ipvs_get_dests E se st) = Returned (Some dests) ->
    fst (cipvs_submit_service E se st) = Returned tt ->
    Z.of_nat (String.length (pi_text (host_order E) se))
      < DATA_MAX_NAME_LEN E ->
    nth_error (gd_entrytable dests) k = Some de ->
    (k < Z.to_nat (gd_num_dests dests))%nat ->
    Z.of_nat (String.length (ti_text (host_order E) de))
      < DATA_MAX_NAME_LEN E ->
    exists t1 t2 t3 before after,
      dispatched (snd (cipvs_submit_service E se st)) =
        (dispatched st ++ before ++
         entity_samples E (pi_text (host_order E) se)
           (ti_text (host_order E) de) (de_stats de) t1 t2 t3 ++ after)%list.
Proof.
  intros E se st dests de k Hfetch Hret Hfit Hnth Hk Hdfit.
  destruct (cipvs_submit_service E se st) as [o sb] eqn:Hrun.
  simpl in Hret; subst o.
  destruct (cipvs_submit_service_returned E se st sb Hrun Hfit)
    as (dests' & s1 & s2 & u1 & u2 & u3 & Hf & Hq1 & Hd & Hloop).
  rewrite Hf in Hfetch; simpl in Hfetch; injection Hfetch as ->.
  destruct (for_each_entry_returned (emits (fun _ => True)) _ _
              (emits_refl _) (emits_trans _)
              (cipvs_submit_dest_extends E _) _ _ _ _ Hloop k
              ltac:(lia))
    as (a & sa & sc & Hn & (n1 & H1 & _) & Hb & (n4 & H4 & _)).
  rewrite Hnth in Hn; injection Hn as <-.
  destruct (cipvs_submit_dest_fits E (pi_text (host_order E) se) de sa Hdfit)
    as (t1 & t2 & t3 & sc' & Hb' & Hdd & _).
  rewrite Hb in Hb'; injection Hb' as <-.
  exists t1, t2, t3,
    (entity_samples E (pi_text (host_order E) se) "total" (se_stats se)
       u1 u2 u3 ++ n1)%list, n4.
  unfold dispatches in *; cbn [snd].
  rewrite H4, Hdd, H1, Hd, Hq1, <- !app_assoc; reflexivity.
Qed.

Lemma finished_service_reports_every_dest_witness :
  exists t1 t2 t3 before after,
    dispatched
      (snd (cipvs_submit_service round_trip_kernel
              (service_10_0_0_1 LittleEndian)
              (after_init round_trip_kernel))) =
      (before ++
       entity_samples round_trip_kernel "10.0.0.1_TCP80" "10.0.0.2_8080"
         stats_5_10_20_100_200 t1 t2 t3 ++ after)%list.
Proof.
  destruct (finished_service_reports_every_dest round_trip_kernel
              (service_10_0_0_1 LittleEndian)
              (after_init round_trip_kernel)
              {| gd_protocol := IPPROTO_TCP;
                 gd_addr := in_addr_of LittleEndian 10 0 0 1;
                 gd_port := htons LittleEndian 80;
                 gd_fwmark := 0;
                 gd_num_dests := 1;
                 gd_entrytable := [dest_10_0_0_2 LittleEndian] |}
              (dest_10_0_0_2 LittleEndian) 0%nat)
    as (t1 & t2 & t3 & before & after & H);
    [reflexivity | reflexivity | vm_compute; reflexivity | reflexivity
    | simpl; lia | vm_compute; reflexivity |].
  exists t1, t2, t3, before, after; exact H.
Defined.
